(** * tsc-ext: extension hooks around the TypeScript compiler

    A shallow embedding of [src/index.ts] (the extension-aware compiler host
    and the [main] orchestrator) and of the delegating host it specialises,
    followed by the properties of the host composition, of diagnostic
    validation and of the emission phase.

    Conventions.
    - A JavaScript value that may be [undefined]/[null] is an [option].
    - A JavaScript array of diagnostics may have absent elements (as in
      [check([error])]), so it is a [list (option Diagnostic)].
    - Code that changes the environment, throws, or calls [process.exit] is a
      state-passing function into [Outcome].
    - The TypeScript engine and the Node runtime are interfaces (type classes):
      every theorem holds for all of their implementations, and the closed
      examples at the end instantiate them. *)

From Stdlib Require Import ZArith.
From stdpp Require Import gmap strings list fin_maps pretty.

Set Default Proof Using "Type".

(** ** Outcomes of a computation *)

(** How a piece of the program ends: it returns, an exception propagates, or
    the process is terminated by [process.exit(code)]. *)
Inductive Exception : Type :=
| TypeError                    (* raised by the runtime itself *)
| Raised (message : string).   (* raised by a library or an extension *)

Inductive Outcome (A : Type) : Type :=
| Normal (a : A)
| Thrown (e : Exception)
| Exited (code : Z).
Arguments Normal {A} a.
Arguments Thrown {A} e.
Arguments Exited {A} code.

Definition aborted {A : Type} (o : Outcome A) : bool :=
  match o with
  | Normal _ => false
  | Thrown _ | Exited _ => true
  end.

(** State-passing computations over a state [S]. *)
Definition St (S A : Type) : Type := S -> Outcome A * S.

Global Instance St_ret {S : Type} : MRet (St S) :=
  fun A a s => (Normal a, s).

Global Instance St_bind {S : Type} : MBind (St S) :=
  fun A B f m s =>
    match m s with
    | (Normal a, s') => f a s'
    | (Thrown e, s') => (Thrown e, s')
    | (Exited c, s') => (Exited c, s')
    end.

Definition throw {S A : Type} (e : Exception) : St S A := fun s => (Thrown e, s).

(** [process.exit(code)] *)
Definition process_exit {S A : Type} (code : Z) : St S A := fun s => (Exited code, s).

Definition of_outcome {S A : Type} (o : Outcome A) : St S A := fun s => (o, s).

Definition effect {S : Type} (f : S -> S) : St S unit := fun s => (Normal tt, f s).

(** [xs.forEach(x => body)] where the body updates an accumulator. *)
Fixpoint forEach {S A T : Type} (body : A -> T -> St S T) (xs : list A) (acc : T) : St S T :=
  match xs with
  | [] => mret acc
  | x :: rest => acc' ← body x acc; forEach body rest acc'
  end.

(** [xs.filter(p)] for a predicate with side effects. *)
Fixpoint filterSt {S A : Type} (p : A -> St S bool) (xs : list A) : St S (list A) :=
  match xs with
  | [] => mret (M := St S) []
  | x :: rest =>
      keep ← p x;
      kept ← filterSt p rest;
      mret (if keep : bool then x :: kept else kept)
  end.

(** ** Strings *)

Definition LF : string := String (Ascii.ascii_of_nat 10) "".

(** [/suffix$/.test(s)] for a literal suffix. *)
Definition ends_with (suffix s : string) : bool :=
  bool_decide (String.substring (String.length s - String.length suffix)
                                (String.length suffix) s = suffix)
  && bool_decide (String.length suffix <= String.length s).

(** Truthiness of a possibly undefined string: [undefined] and [''] are falsy. *)
Definition truthy_string (s : option string) : bool :=
  match s with
  | Some s' => negb (bool_decide (s' = ""))
  | None => false
  end.

(** ** The TypeScript engine: data *)

Definition ScriptTarget : Type := nat.

Inductive DiagnosticCategory : Type := Warning | Error | Message.

(** [ts.DiagnosticCategory[c]], the reverse mapping of the enum. *)
Definition DiagnosticCategory_name (c : DiagnosticCategory) : string :=
  match c with
  | Warning => "Warning"
  | Error => "Error"
  | Message => "Message"
  end.

Class EngineData : Type := {
  SourceFile : Type;
  Program : Type;
  CompilerOptions : Type;
  ResolvedModule : Type;
  MessageText : Type;
  Config : Type;
  CancellationToken : Type;
  (** [sf.fileName] *)
  sf_fileName : SourceFile -> string;
  (** [sf.getLineAndCharacterOfPosition(pos)], zero-based *)
  getLineAndCharacterOfPosition : SourceFile -> nat -> nat * nat;
  (** [ts.flattenDiagnosticMessageText(text, newline)] *)
  flattenDiagnosticMessageText : MessageText -> string -> string;
  (** [ts.createSourceFile(fileName, text, languageVersion, setParentNodes)]
      on a text that is a string *)
  createSourceFile : string -> string -> ScriptTarget -> bool -> SourceFile;
  (** [resolvedModule.resolvedFileName] *)
  resolvedFileName : ResolvedModule -> string;
  (** [options.outDir] *)
  outDir : CompilerOptions -> option string;
}.

(** ** The Node runtime *)

Class Node (B : Type) : Type := {
  console_log : list string -> B -> B;
  console_error : list string -> B -> B;
  (** [path.join(a, b)] on two strings *)
  path_join_strings : string -> string -> string;
  path_dirname : string -> string;
  (** [fs.lstatSync(p).isDirectory()] *)
  lstat_isDirectory : string -> St B bool;
  (** [mkdirp.sync(dir)] *)
  mkdirp_sync : string -> St B unit;
  (** [fs.writeFileSync(file, data)] *)
  fs_writeFileSync : string -> string -> St B unit;
}.

Section Diagnostics.
Context `{ED : EngineData} {B : Type} `{ND : !Node B}.

Record Diagnostic : Type := {
  category : DiagnosticCategory;
  file : option SourceFile;
  start : nat;
  messageText : MessageText;
}.

(** A JavaScript array of diagnostics. *)
Local Abbreviation DiagArray := (list (option Diagnostic)).

(** The callback of [diags.map] in [formatDiagnostics]; reading a property
    of an absent element throws. *)
Definition formatDiagnostic (d : option Diagnostic) : Outcome string :=
  match d with
  | None => Thrown TypeError
  | Some d =>
      let res := DiagnosticCategory_name (category d) in
      let res :=
        match file d with
        | Some f =>
            let res := res +:+ " at " +:+ sf_fileName f +:+ ":" in
            let '(line, character) := getLineAndCharacterOfPosition f (start d) in
            res +:+ pretty (line + 1) +:+ ":" +:+ pretty (character + 1) +:+ ":"
        | None => res
        end in
      Normal (res +:+ " " +:+ flattenDiagnosticMessageText (messageText d) LF)
  end.

Fixpoint mapOutcome {A C : Type} (f : A -> Outcome C) (xs : list A) : Outcome (list C) :=
  match xs with
  | [] => Normal []
  | x :: rest =>
      match f x with
      | Normal y =>
          match mapOutcome f rest with
          | Normal ys => Normal (y :: ys)
          | Thrown e => Thrown e
          | Exited c => Exited c
          end
      | Thrown e => Thrown e
      | Exited c => Exited c
      end
  end.

Definition formatDiagnostics (diags : DiagArray) : Outcome string :=
  match mapOutcome formatDiagnostic diags with
  | Normal lines => Normal (String.concat LF lines)
  | Thrown e => Thrown e
  | Exited c => Exited c
  end.

(** [diagnostics[0]] *)
Definition first_element (diagnostics : DiagArray) : option Diagnostic :=
  mjoin (diagnostics !! 0).

(** [function check(diagnostics)]: the argument itself may be null. *)
Definition check (diagnostics : option DiagArray) : St B unit :=
  match diagnostics with
  | Some ds =>
      if negb (length ds =? 0) && bool_decide (is_Some (first_element ds)) then
        text ← of_outcome (formatDiagnostics ds);
        effect (console_error ["FATAL"; text]);;
        process_exit 1
      else mret tt
  | None => mret tt
  end.

Definition DEBUG : bool := true.

Definition debug (msg : string) : St B unit :=
  if DEBUG then effect (console_log [msg]) else mret tt.

End Diagnostics.

Abbreviation DiagArray := (list (option Diagnostic)).

(** ** Compiler hosts *)

Section HostInterface.
Context `{ED : EngineData}.

(** The optional [onError] callback handed to a host by the engine. *)
Definition OnError (B : Type) : Type := string -> St B unit.

(** The identity of an object: what a function sees as [this]. *)
Definition ObjectId : Type := nat.

(** [ts.CompilerHost] as an object of operations over a state [S]; [B] is
    the environment the error callbacks act on.  Members the interface
    declares optional may be absent.  A member stands for the method call
    [host.member(...)], whose receiver is [host]; [writeFile] alone is held
    as the function itself, which is told its receiver, because
    [DelegatingHost] copies that function onto another object. *)
Record CompilerHost (B S : Type) : Type := {
  object_id : ObjectId;
  getSourceFile : string -> ScriptTarget -> option (OnError B) -> St S (option SourceFile);
  getCancellationToken : option (St S CancellationToken);
  getDefaultLibFileName : CompilerOptions -> St S string;
  getDefaultLibLocation : option (St S string);
  writeFile_function :
    ObjectId -> string -> string -> bool -> option (OnError B) -> St S unit;
  getCurrentDirectory : St S string;
  getCanonicalFileName : string -> St S string;
  useCaseSensitiveFileNames : St S bool;
  getNewLine : St S string;
  resolveModuleNames : option (list string -> string -> St S (list ResolvedModule));
  fileExists : string -> St S bool;
  readFile : string -> St S (option string);
  trace : option (string -> St S unit);
  directoryExists : option (string -> St S bool);
}.

(** The method call [host.writeFile(...)]: the function runs with [host] as
    its receiver. *)
Definition writeFile (B S : Type) (host : CompilerHost B S)
  : string -> string -> bool -> option (OnError B) -> St S unit :=
  writeFile_function B S host (object_id B S host).

(** Using a value that may be absent: calling [host.member(...)] when the
    member is [undefined], or reading a property of [undefined], throws. *)
Definition call_member {S T A : Type} (f : option T) (k : T -> St S A) : St S A :=
  match f with
  | Some g => k g
  | None => throw TypeError
  end.

(** One call made on a host, indexed by what it returns. *)
Inductive HostCall (B : Type) : Type -> Type :=
| CallGetSourceFile (fileName : string) (languageVersion : ScriptTarget)
    (onError : option (OnError B)) : HostCall B (option SourceFile)
| CallGetCancellationToken : HostCall B CancellationToken
| CallGetDefaultLibFileName (options : CompilerOptions) : HostCall B string
| CallGetDefaultLibLocation : HostCall B string
| CallWriteFile (fileName content : string) (writeByteOrderMark : bool)
    (onError : option (OnError B)) : HostCall B unit
| CallGetCurrentDirectory : HostCall B string
| CallGetCanonicalFileName (fileName : string) : HostCall B string
| CallUseCaseSensitiveFileNames : HostCall B bool
| CallGetNewLine : HostCall B string
| CallResolveModuleNames (moduleNames : list string) (containingFile : string)
    : HostCall B (list ResolvedModule)
| CallFileExists (fileName : string) : HostCall B bool
| CallReadFile (fileName : string) : HostCall B (option string)
| CallTrace (s : string) : HostCall B unit
| CallDirectoryExists (directoryName : string) : HostCall B bool.

(** [host.op(args)] *)
Definition perform {B S A : Type} (host : CompilerHost B S) (c : HostCall B A) : St S A :=
  match c in HostCall _ T return St S T with
  | CallGetSourceFile _ f lv e => getSourceFile _ _ host f lv e
  | CallGetCancellationToken _ =>
      call_member (getCancellationToken _ _ host) id
  | CallGetDefaultLibFileName _ o => getDefaultLibFileName _ _ host o
  | CallGetDefaultLibLocation _ =>
      call_member (getDefaultLibLocation _ _ host) id
  | CallWriteFile _ f c bom e => writeFile _ _ host f c bom e
  | CallGetCurrentDirectory _ => getCurrentDirectory _ _ host
  | CallGetCanonicalFileName _ f => getCanonicalFileName _ _ host f
  | CallUseCaseSensitiveFileNames _ => useCaseSensitiveFileNames _ _ host
  | CallGetNewLine _ => getNewLine _ _ host
  | CallResolveModuleNames _ ns cf =>
      call_member (resolveModuleNames _ _ host) (fun g => g ns cf)
  | CallFileExists _ f => fileExists _ _ host f
  | CallReadFile _ f => readFile _ _ host f
  | CallTrace _ s => call_member (trace _ _ host) (fun g => g s)
  | CallDirectoryExists _ d =>
      call_member (directoryExists _ _ host) (fun g => g d)
  end.

(** An engine routine that is handed a host ([createProgram], [emit]): a
    finite sequence of calls on that host, each continuing with the value
    the host returned. *)
Inductive Script (B R : Type) : Type :=
| Done (r : R)
| Call {A : Type} (c : HostCall B A) (k : A -> Script B R).

Fixpoint run_script {B S R : Type} (host : CompilerHost B S) (s : Script B R) : St S R :=
  match s with
  | Done _ _ r => mret r
  | Call _ _ c k => a ← perform host c; run_script host (k a)
  end.

End HostInterface.

Arguments object_id {_ _ _} _.
Arguments writeFile_function {_ _ _} _.
Arguments getSourceFile {_ _ _} _.
Arguments getCancellationToken {_ _ _} _.
Arguments getDefaultLibFileName {_ _ _} _.
Arguments getDefaultLibLocation {_ _ _} _.
Arguments writeFile {_ _ _} _.
Arguments getCurrentDirectory {_ _ _} _.
Arguments getCanonicalFileName {_ _ _} _.
Arguments useCaseSensitiveFileNames {_ _ _} _.
Arguments getNewLine {_ _ _} _.
Arguments resolveModuleNames {_ _ _} _.
Arguments fileExists {_ _ _} _.
Arguments readFile {_ _ _} _.
Arguments trace {_ _ _} _.
Arguments directoryExists {_ _ _} _.
Arguments Done {_ _ _} r.
Arguments Call {_ _ _ _} c k.

(** *** DelegatingHost (delegating_host.ts) *)

Section Delegating.
Context `{ED : EngineData} {B S : Type}.

(** [new DelegatingHost(delegate)]: a new object, so its identity is not the
    delegate's.  Every member is an arrow function that forwards to the
    delegate by a method call, except [writeFile]: its initialiser
    [= this.delegate.writeFile] copies the delegate's function, unbound, so
    a call of [writeFile] on the new object runs that function with the new
    object as receiver. *)
Definition DelegatingHost (delegate : CompilerHost B S) : CompilerHost B S := {|
  object_id := Datatypes.S (object_id delegate);
  getSourceFile := fun fileName languageVersion onError =>
    getSourceFile delegate fileName languageVersion onError;
  getCancellationToken :=
    Some (call_member (getCancellationToken delegate) id);
  getDefaultLibFileName := fun options => getDefaultLibFileName delegate options;
  getDefaultLibLocation :=
    Some (call_member (getDefaultLibLocation delegate) id);
  writeFile_function := writeFile_function delegate;
  getCurrentDirectory := getCurrentDirectory delegate;
  getCanonicalFileName := fun fileName => getCanonicalFileName delegate fileName;
  useCaseSensitiveFileNames := useCaseSensitiveFileNames delegate;
  getNewLine := getNewLine delegate;
  resolveModuleNames := Some (fun moduleNames containingFile =>
    call_member (resolveModuleNames delegate)
      (fun g => g moduleNames containingFile));
  fileExists := fun fileName => fileExists delegate fileName;
  readFile := fun fileName => readFile delegate fileName;
  trace := Some (fun s =>
    call_member (trace delegate) (fun g => g s));
  directoryExists := Some (fun directoryName =>
    call_member (directoryExists delegate)
      (fun g => g directoryName));
|}.

End Delegating.

(** ** Extensions *)

Section Extensions.
Context `{ED : EngineData}.

(** What [preProcess] returns. *)
Record PreProcessResult : Type := {
  content : string;
  diagnostics : DiagArray;
}.

(** The configuration bag of an extension, from tsconfig.json. *)
Record ExtensionOptions : Type := {
  genDir : option string;
}.

(** [interface Extension] with the two members of [DebugExtension].  Every
    hook is optional.  [preProcess] and [postProcess] are text
    transformers and are functions of their arguments; [codegen] and
    [check] return nothing and act on the environment [B] only.
    [preProcess] receives whatever the host's [program] member holds (it may
    still be unassigned) and whatever the delegate returned as source file. *)
Record Extension (B : Type) : Type := {
  options : ExtensionOptions;
  preProcess : option (option Program -> option SourceFile -> PreProcessResult);
  postProcess : option (string -> string -> string);
  codegen : option ((string -> string -> St B unit) -> St B unit);
  check_hook : option (St B unit);
  name : string;
  loadPath : string;
}.

Inductive ExtensionPoint : Type := PreProcessPoint | PostProcessPoint | CodegenPoint | CheckPoint.

(** The property name each extension point is probed by. *)
Definition extensionPoint_name (p : ExtensionPoint) : string :=
  match p with
  | PreProcessPoint => "preProcess"
  | PostProcessPoint => "postProcess"
  | CodegenPoint => "codegen"
  | CheckPoint => "check"
  end.

End Extensions.

Arguments options {_ _} _.
Arguments preProcess {_ _} _.
Arguments postProcess {_ _} _.
Arguments codegen {_ _} _.
Arguments check_hook {_ _} _.
Arguments name {_ _} _.
Arguments loadPath {_ _} _.

Section Enabled.
Context `{ED : EngineData} {B : Type} `{ND : !Node B}.

(** [!!ext[extensionPoint]] *)
Definition provides (extensionPoint : ExtensionPoint) (ext : Extension B) : bool :=
  match extensionPoint with
  | PreProcessPoint => bool_decide (is_Some (preProcess ext))
  | PostProcessPoint => bool_decide (is_Some (postProcess ext))
  | CodegenPoint => bool_decide (is_Some (codegen ext))
  | CheckPoint => bool_decide (is_Some (check_hook ext))
  end.

(** [function enabled(extensionPoint)]: the predicate it returns logs which
    way it decided. *)
Definition enabled (extensionPoint : ExtensionPoint) (ext : Extension B) : St B bool :=
  let result := provides extensionPoint ext in
  (if result then
     debug ("Executing " +:+ extensionPoint_name extensionPoint
              +:+ " from extension " +:+ name ext)
   else
     debug ("Extension " +:+ name ext +:+ " does not provide "
              +:+ extensionPoint_name extensionPoint));;
  mret result.

End Enabled.

(** ** The TypeScript engine: operations *)

Section EngineResults.
Context `{ED : EngineData}.

(** What [ts.readConfigFile] returns. *)
Record ConfigFile : Type := {
  config : option Config;
  error : option Diagnostic;
}.

(** What [ts.parseJsonConfigFileContent] returns. *)
Record ParsedCommandLine : Type := {
  parsed_options : CompilerOptions;
  fileNames : list string;
  errors : DiagArray;
}.

(** What [program.emit] returns. *)
Record EmitResult : Type := {
  emit_diagnostics : DiagArray;
  emitSkipped : bool;
}.

End EngineResults.

Class Engine `{ED : EngineData} (B : Type) : Type := {
  (** [ts.readConfigFile(project, f => fs.readFileSync(f, 'utf-8'))] *)
  readConfigFile : string -> St B ConfigFile;
  (** [config.extensions]: the entries in key order, when the block exists *)
  config_extensions : Config -> option (list (string * ExtensionOptions));
  (** [delete config.extensions] *)
  delete_extensions : Config -> Config;
  (** [ts.parseJsonConfigFileContent(config, {readDirectory}, basePath)] *)
  parseJsonConfigFileContent : Config -> string -> St B ParsedCommandLine;
  (** [ts.createCompilerHost(options, setParentNodes)] *)
  createCompilerHost : CompilerOptions -> bool -> CompilerHost B B;
  (** [ts.createProgram(fileNames, options, host)], as a routine on [host] *)
  createProgram : list string -> CompilerOptions -> Script B Program;
  (** [ts.resolveModuleName(name, containingFile, options, host).resolvedModule] *)
  resolveModuleName :
    string -> string -> CompilerOptions -> CompilerHost B B -> St B (option ResolvedModule);
  getOptionsDiagnostics : Program -> DiagArray;
  getGlobalDiagnostics : Program -> DiagArray;
  getSourceFiles : Program -> list SourceFile;
  (** [ts.getPreEmitDiagnostics(program, sf?)] *)
  getPreEmitDiagnostics : Program -> option SourceFile -> DiagArray;
  (** [program.emit(sf)], as a routine on the host the program was built with *)
  emit : Program -> SourceFile -> Script B EmitResult;
  (** [require.resolve(id)]: the file name a module identifier resolves to,
      when it resolves.  The module cache is keyed by this name, so two
      identifiers load the same object exactly when they resolve alike. *)
  require_resolve : string -> option string;
  (** [.default] of the module at a resolved file name, as the module
      defines it, when that module loads and has a default export *)
  module_default : string -> option (Extension B);
}.

(** ** ExtCompilerHost *)

Section ExtCompilerHost.
Context `{ED : EngineData} {B : Type} `{ND : !Node B} `{EN : !Engine B}.

(** Ghost events: they record when a [preProcess] hook is entered (with
    the program reference it is given) and when [main] assigns the
    [program] member.  Nothing computed depends on them. *)
Inductive HostEvent : Type :=
| PreProcessCalled (extension : string) (programArg : option Program)
| ProgramAssigned (p : Program).

(** The mutable members of one [ExtCompilerHost]. *)
Record ExtCompilerHostState : Type := {
  host_diagnostics : DiagArray;
  host_program : option Program;
  reverseMap : gmap string string;
  ghost_events : list HostEvent;
}.

(** The members as the field initialisers leave them. *)
Definition new_ExtCompilerHost : ExtCompilerHostState := {|
  host_diagnostics := [];
  host_program := None;
  reverseMap := ∅;
  ghost_events := [];
|}.

Definition World : Type := ExtCompilerHostState * B.

(** A computation on the environment, run beside the host's members. *)
Definition lift {A : Type} (m : St B A) : St World A :=
  fun w => let '(o, b) := m (snd w) in (o, (fst w, b)).

Definition get_host : St World ExtCompilerHostState :=
  fun w => (Normal (fst w), w).

Definition modify_host (f : ExtCompilerHostState -> ExtCompilerHostState) : St World unit :=
  effect (fun w => (f (fst w), snd w)).

Definition push_diagnostics (ds : DiagArray) (h : ExtCompilerHostState) : ExtCompilerHostState :=
  {| host_diagnostics := host_diagnostics h ++ ds;
     host_program := host_program h;
     reverseMap := reverseMap h;
     ghost_events := ghost_events h |}.

Definition set_reverseMap (path specifier : string) (h : ExtCompilerHostState)
  : ExtCompilerHostState :=
  {| host_diagnostics := host_diagnostics h;
     host_program := host_program h;
     reverseMap := <[path := specifier]> (reverseMap h);
     ghost_events := ghost_events h |}.

Definition set_program (p : Program) (h : ExtCompilerHostState) : ExtCompilerHostState :=
  {| host_diagnostics := host_diagnostics h;
     host_program := Some p;
     reverseMap := reverseMap h;
     ghost_events := ghost_events h ++ [ProgramAssigned p] |}.

Definition record_event (e : HostEvent) (h : ExtCompilerHostState) : ExtCompilerHostState :=
  {| host_diagnostics := host_diagnostics h;
     host_program := host_program h;
     reverseMap := reverseMap h;
     ghost_events := ghost_events h ++ [e] |}.

(** The inherited members act on the environment only. *)
Definition lift_host (h : CompilerHost B B) : CompilerHost B World := {|
  object_id := object_id h;
  getSourceFile := fun fileName languageVersion onError =>
    lift (getSourceFile h fileName languageVersion onError);
  getCancellationToken := lift <$> getCancellationToken h;
  getDefaultLibFileName := fun o => lift (getDefaultLibFileName h o);
  getDefaultLibLocation := lift <$> getDefaultLibLocation h;
  writeFile_function := fun this fileName data writeByteOrderMark onError =>
    lift (writeFile_function h this fileName data writeByteOrderMark onError);
  getCurrentDirectory := lift (getCurrentDirectory h);
  getCanonicalFileName := fun fileName => lift (getCanonicalFileName h fileName);
  useCaseSensitiveFileNames := lift (useCaseSensitiveFileNames h);
  getNewLine := lift (getNewLine h);
  resolveModuleNames :=
    (fun g moduleNames containingFile => lift (g moduleNames containingFile))
      <$> resolveModuleNames h;
  fileExists := fun fileName => lift (fileExists h fileName);
  readFile := fun fileName => lift (readFile h fileName);
  trace := (fun g s => lift (g s)) <$> trace h;
  directoryExists := (fun g d => lift (g d)) <$> directoryExists h;
|}.

(** The constructor parameters: [this.delegate], [this.options] and
    [this.extensions]. *)
Variable delegate : CompilerHost B B.
Variable compilerOptions : CompilerOptions.
Variable extensions : list (Extension B).

(** The body of the [forEach] of [resolveModuleNames]. *)
Definition resolve_each (containingFile moduleName : string) (result : list ResolvedModule)
  : St World (list ResolvedModule) :=
  resolved ← lift (resolveModuleName moduleName containingFile compilerOptions delegate);
  match resolved with
  | Some resolvedModule =>
      modify_host (set_reverseMap (resolvedFileName resolvedModule) moduleName);;
      mret (result ++ [resolvedModule])
  | None => mret result
  end.

Definition ExtCompilerHost_resolveModuleNames
    (moduleNames : list string) (containingFile : string) : St World (list ResolvedModule) :=
  forEach (resolve_each containingFile) moduleNames [].

(** [ts.createSourceFile(fileName, text, languageVersion, setParentNodes)]
    as [getSourceFile] calls it: the text comes from [readFile] and may be
    [undefined], on which the parser raises a [TypeError]. *)
Definition ts_createSourceFile (fileName : string) (text : option string)
    (languageVersion : ScriptTarget) (setParentNodes : bool) : Outcome SourceFile :=
  match text with
  | Some text => Normal (createSourceFile fileName text languageVersion setParentNodes)
  | None => Thrown TypeError
  end.

(** The body of the [forEach] of [getSourceFile]: the hook is given
    [this.program] as it is at that moment, its diagnostics are pushed onto
    [this.diagnostics], its content replaces the local [content]. *)
Definition preProcess_each (sourceFile : option SourceFile) (ext : Extension B)
    (text : option string) : St World (option string) :=
  call_member (preProcess ext) (fun hook =>
    h ← get_host;
    modify_host (record_event (PreProcessCalled (name ext) (host_program h)));;
    let result := hook (host_program h) sourceFile in
    modify_host (push_diagnostics (diagnostics result));;
    mret (Some (content result))).

Definition ExtCompilerHost_getSourceFile
    (fileName : string) (languageVersion : ScriptTarget) (onError : option (OnError B))
  : St World (option SourceFile) :=
  sourceFile ← lift (getSourceFile delegate fileName languageVersion onError);
  let isDefinitions := ends_with ".d.ts" fileName in
  if isDefinitions then mret sourceFile
  else
    text ← lift (readFile (DelegatingHost delegate) fileName);
    exts ← lift (filterSt (enabled PreProcessPoint) extensions);
    text ← forEach (preProcess_each sourceFile) exts text;
    parsed ← of_outcome (ts_createSourceFile fileName text languageVersion true);
    mret (Some parsed).

(** The body of the [forEach] of [writeFile]. *)
Definition postProcess_each (fileName : string) (ext : Extension B) (data : string)
  : St World string :=
  call_member (postProcess ext) (fun hook => mret (hook fileName data)).

Definition ExtCompilerHost_writeFile
    (fileName data : string) (writeByteOrderMark : bool) (onError : option (OnError B))
  : St World unit :=
  exts ← lift (filterSt (enabled PostProcessPoint) extensions);
  data ← forEach (postProcess_each fileName) exts data;
  lift (writeFile delegate fileName data writeByteOrderMark onError).

(** [new ExtCompilerHost(delegate, options, extensions)]: the three
    overriding members, the rest as [DelegatingHost] defines them. *)
Definition ExtCompilerHost : CompilerHost B World :=
  let super := lift_host (DelegatingHost delegate) in
  {| object_id := object_id super;
     getSourceFile := ExtCompilerHost_getSourceFile;
     getCancellationToken := getCancellationToken super;
     getDefaultLibFileName := getDefaultLibFileName super;
     getDefaultLibLocation := getDefaultLibLocation super;
     writeFile_function := fun _ => ExtCompilerHost_writeFile;
     getCurrentDirectory := getCurrentDirectory super;
     getCanonicalFileName := getCanonicalFileName super;
     useCaseSensitiveFileNames := useCaseSensitiveFileNames super;
     getNewLine := getNewLine super;
     resolveModuleNames := Some ExtCompilerHost_resolveModuleNames;
     fileExists := fileExists super;
     readFile := readFile super;
     trace := trace super;
     directoryExists := directoryExists super |}.

End ExtCompilerHost.

(** ** The orchestrator *)

Section Main.
Context `{ED : EngineData} {B : Type} `{ND : !Node B} `{EN : !Engine B}.

(** Node's [path.join(a, b)]: every segment must be a string, an undefined
    segment raises a [TypeError]; on strings it is [path_join_strings]. *)
Definition path_join (a b : option string) : Outcome string :=
  match a, b with
  | Some a, Some b => Normal (path_join_strings a b)
  | _, _ => Thrown TypeError
  end.

(** One turn of the loop of [load].  [require(extension).default] is the
    object the module cache holds for the resolved file; the turn assigns
    its [options], [name] and [loadPath] in place (the hooks stay as the
    module defines them) and pushes a reference to it.  [objects] holds the
    objects assigned so far, by resolved file name; [result] holds the
    references pushed so far.  A module that does not resolve or load, or
    that has no default export, is reported and contributes nothing. *)
Definition load_each (entry : string * ExtensionOptions)
    (acc : gmap string (Extension B) * list string)
  : St B (gmap string (Extension B) * list string) :=
  let extension := fst entry in
  let failed :=
    effect (console_error ["Unable to load extension " +:+ extension
                             +:+ ". Is the npm module installed?"]);;
    mret acc in
  match require_resolve extension with
  | Some file =>
      match module_default file with
      | Some ext =>
          let ext := {| options := snd entry;
                        preProcess := preProcess ext;
                        postProcess := postProcess ext;
                        codegen := codegen ext;
                        check_hook := check_hook ext;
                        name := extension;
                        loadPath := file |} in
          mret (<[file := ext]> (fst acc), snd acc ++ [file])
      | None => failed
      end
  | None => failed
  end.

(** [function load(extensionsCfg)]: the array it returns, each reference
    read once the loop is over, as every later use of it does. *)
Definition load (extensionsCfg : option (list (string * ExtensionOptions)))
  : St B (list (Extension B)) :=
  match extensionsCfg with
  | None => mret []
  | Some entries =>
      acc ← forEach load_each entries (∅, []);
      mret (omap (fun file => fst acc !! file) (snd acc))
  end.

(** Lines 157 to 174 of [main]: the base path, the project file, the
    extensions and the parsed command line. *)
Definition resolve_config (project : string) (basePath : option string)
  : St B (string * list (Extension B) * ParsedCommandLine) :=
  let basePath := if truthy_string basePath then default "" basePath else project in
  isDirectory ← lstat_isDirectory project;
  let project := if isDirectory : bool then path_join_strings project "tsconfig.json"
                 else project in
  read ← readConfigFile project;
  check (Some [error read]);;
  call_member (config read) (fun config =>
    extensions ← load (config_extensions config);
    let config := delete_extensions config in
    parsed ← parseJsonConfigFileContent config basePath;
    check (Some (errors parsed));;
    mret (basePath, extensions, parsed)).

Section WithConfig.
Variable basePath : string.
Variable parsed : ParsedCommandLine.
Variable extensions : list (Extension B).

Definition delegateHost : CompilerHost B B :=
  createCompilerHost (parsed_options parsed) true.

Definition compilerHost : CompilerHost B World :=
  ExtCompilerHost delegateHost (parsed_options parsed) extensions.

(** Lines 178 to 181: the program is built with the host, then assigned
    onto it. *)
Definition construct : St World Program :=
  program ← run_script compilerHost
               (createProgram (fileNames parsed) (parsed_options parsed));
  modify_host (set_program program);;
  mret program.

Definition isCompilationTarget (sf : SourceFile) : bool := true.

(** The callback handed to [ext.codegen], lines 191 to 202. *)
Definition codegen_writeFile (ext : Extension B) (filename source : string) : St B unit :=
  outDir ←
    (if truthy_string (genDir (options ext)) then
       joined ← of_outcome (path_join (Some basePath) (genDir (options ext)));
       mret (Some joined)
     else mret (outDir (parsed_options parsed)));
  dest ← of_outcome (path_join outDir (Some filename));
  mkdirp_sync (path_dirname dest);;
  fs_writeFileSync dest source;;
  debug ("[tsc-ext] Wrote " +:+ dest).

(** Line 190: every codegen-capable extension, in order. *)
Definition codegen_phase : St B unit :=
  exts ← filterSt (enabled CodegenPoint) extensions;
  forEach (fun ext (_ : unit) =>
    call_member (codegen ext) (fun hook => hook (codegen_writeFile ext))) exts tt.

(** Lines 206 to 210: the per-file pre-emit diagnostics pushed onto the
    [diagnostics] array of [main]. *)
Definition collect_preEmit (program : Program) (diagnostics : DiagArray) : DiagArray :=
  fold_left (fun ds sf =>
    if isCompilationTarget sf then ds ++ getPreEmitDiagnostics program (Some sf) else ds)
    (getSourceFiles program) diagnostics.

(** Line 217. *)
Definition check_phase : St B unit :=
  exts ← filterSt (enabled CheckPoint) extensions;
  forEach (fun ext (_ : unit) => call_member (check_hook ext) id) exts tt.

(** Lines 219 to 226.  The [let {diagnostics, emitSkipped}] of the loop
    body declares a block-scoped [diagnostics] (here [diagnostics_1]) that
    hides the array of [main]: the push lands on the array [emit]
    returned, and the loop hands back [main]'s array as it received it. *)
Definition emit_loop (program : Program) (diagnostics : DiagArray)
  : St World (DiagArray * bool) :=
  forEach (fun sf (vars : DiagArray * bool) =>
    let '(diagnostics, failed) := vars in
    if isCompilationTarget sf then
      result ← run_script compilerHost (emit program sf);
      let diagnostics_1 := emit_diagnostics result in
      let diagnostics_1 := diagnostics_1 ++ diagnostics_1 in
      mret (diagnostics, failed || emitSkipped result)
    else mret (diagnostics, failed))
    (getSourceFiles program) (diagnostics, false).

(** Lines 219 to 228. *)
Definition emit_phase (program : Program) (diagnostics : DiagArray) : St World Z :=
  vars ← emit_loop program diagnostics;
  lift (check (Some (fst vars)));;
  mret (if snd vars : bool then 1%Z else 0%Z).

(** Lines 182 to 228. *)
Definition after_construct (program : Program) (diagnostics : DiagArray) : St World Z :=
  lift (check (Some (getOptionsDiagnostics program)));;
  lift codegen_phase;;
  lift (check (Some (getGlobalDiagnostics program)));;
  let diagnostics := collect_preEmit program diagnostics in
  lift (check (Some diagnostics));;
  h ← get_host;
  lift (check (Some (host_diagnostics h)));;
  lift (check (Some (getPreEmitDiagnostics program None)));;
  lift check_phase;;
  emit_phase program diagnostics.

(** Lines 176 to 228, on a freshly built host. *)
Definition main_host (diagnostics : DiagArray) : St World Z :=
  program ← construct;
  after_construct program diagnostics.

End WithConfig.

(** Runs a computation on a host whose members are freshly initialised. *)
Definition with_new_host {A : Type} (m : St World A) : St B A :=
  fun b => let '(o, w) := m (new_ExtCompilerHost, b) in (o, snd w).

(** [export function main(project, basePath?)] *)
Definition main (project : string) (basePath : option string) : St B Z :=
  let diagnostics : DiagArray := [] in
  cfg ← resolve_config project basePath;
  let '(basePath, extensions, parsed) := cfg in
  with_new_host (main_host basePath parsed extensions diagnostics).

End Main.

(** ** A small concrete engine and runtime

    Used by the closed examples: the environment is the list of effects
    performed so far, the file system is a fixed table of texts, a source
    file is the record of what it was parsed from, and a program is the list
    of the source files the host returned for its roots. *)

Inductive Effect : Type :=
| ConsoleLog (args : list string)
| ConsoleError (args : list string)
| Mkdirp (dir : string)
| FsWriteFile (file data : string)
| HostWriteFile (file data : string) (writeByteOrderMark : bool).

Definition Env : Type := list Effect.

Record DemoSource : Type := {
  demo_fileName : string;
  demo_text : option string;
  demo_languageVersion : ScriptTarget;
  demo_setParentNodes : bool;
}.

Definition demo_data : EngineData := {|
  SourceFile := DemoSource;
  Program := list DemoSource;
  CompilerOptions := option string;
  ResolvedModule := string;
  MessageText := string;
  Config := unit;
  CancellationToken := unit;
  sf_fileName := demo_fileName;
  getLineAndCharacterOfPosition := fun _ pos => (0, pos);
  flattenDiagnosticMessageText := fun text _ => text;
  createSourceFile := fun fileName text languageVersion setParentNodes =>
    {| demo_fileName := fileName; demo_text := Some text;
       demo_languageVersion := languageVersion; demo_setParentNodes := setParentNodes |};
  resolvedFileName := fun resolved => resolved;
  outDir := fun o => o;
|}.

Definition demo_node : Node Env := {|
  console_log := fun args env => env ++ [ConsoleLog args];
  console_error := fun args env => env ++ [ConsoleError args];
  path_join_strings := fun a b => a +:+ "/" +:+ b;
  path_dirname := fun p => p +:+ "/..";
  lstat_isDirectory := fun p => mret (negb (ends_with ".json" p));
  mkdirp_sync := fun dir => effect (fun env => env ++ [Mkdirp dir]);
  fs_writeFileSync := fun file data => effect (fun env => env ++ [FsWriteFile file data]);
|}.

Section Demo.
Local Existing Instance demo_data.
Local Existing Instance demo_node.

(** What one run is made of. *)
Record Scenario : Type := {
  sc_files : list (string * string);
  sc_roots : list string;
  sc_outDir : option string;
  sc_extensions : list (string * ExtensionOptions * Extension Env);
  sc_resolve : string -> option string;
  sc_emit : DemoSource -> EmitResult;
}.

Definition demo_lookup {A : Type} (key : string) (table : list (string * A)) : option A :=
  snd <$> List.find (fun entry => bool_decide (fst entry = key)) table.

(** A base host over the table of files; like the engine's own host it
    returns no source file for a file it cannot read. *)
Definition demo_host (files : list (string * string)) (setParentNodes : bool)
  : CompilerHost Env Env := {|
  object_id := 0;
  getSourceFile := fun fileName languageVersion onError =>
    match demo_lookup fileName files with
    | Some text =>
        mret (Some (createSourceFile fileName text languageVersion setParentNodes))
    | None =>
        match onError with
        | Some report => report ("Cannot read file " +:+ fileName);; mret None
        | None => mret None
        end
    end;
  getCancellationToken := None;
  getDefaultLibFileName := fun _ => mret "lib.d.ts";
  getDefaultLibLocation := Some (mret "/lib");
  writeFile_function := fun _ fileName data writeByteOrderMark _ =>
    effect (fun env => env ++ [HostWriteFile fileName data writeByteOrderMark]);
  getCurrentDirectory := mret "/";
  getCanonicalFileName := fun fileName => mret fileName;
  useCaseSensitiveFileNames := mret true;
  getNewLine := mret LF;
  resolveModuleNames := None;
  fileExists := fun fileName => mret (bool_decide (is_Some (demo_lookup fileName files)));
  readFile := fun fileName => mret (demo_lookup fileName files);
  trace := Some (fun s => effect (fun env => env ++ [ConsoleLog [s]]));
  directoryExists := Some (fun _ => mret true);
|}.

(** A base host written as a class: its [writeFile] is a method that finds
    the output directory in a property of [this].  Run on the host itself
    it writes under "out"; run on any other object, which has no such
    property, it raises a [TypeError]. *)
Definition demo_method_host : CompilerHost Env Env :=
  let plain := demo_host [] true in {|
    object_id := 0;
    getSourceFile := getSourceFile plain;
    getCancellationToken := getCancellationToken plain;
    getDefaultLibFileName := getDefaultLibFileName plain;
    getDefaultLibLocation := getDefaultLibLocation plain;
    writeFile_function := fun this fileName data writeByteOrderMark _ =>
      if bool_decide (this = 0) then
        effect (fun env => env ++ [HostWriteFile ("out/" +:+ fileName) data
                                     writeByteOrderMark])
      else throw TypeError;
    getCurrentDirectory := getCurrentDirectory plain;
    getCanonicalFileName := getCanonicalFileName plain;
    useCaseSensitiveFileNames := useCaseSensitiveFileNames plain;
    getNewLine := getNewLine plain;
    resolveModuleNames := resolveModuleNames plain;
    fileExists := fileExists plain;
    readFile := readFile plain;
    trace := trace plain;
    directoryExists := directoryExists plain;
  |}.

(** Program construction asks the host for every root, in order. *)
Fixpoint demo_createProgram (roots : list string) (loaded : list DemoSource)
  : Script Env (list DemoSource) :=
  match roots with
  | [] => Done loaded
  | root :: rest =>
      Call (CallGetSourceFile Env root 1 None)
           (fun sf => demo_createProgram rest (loaded ++ option_list sf))
  end.

(** Emission writes one output per source file through the host. *)
Definition demo_emit (sc : Scenario) (sf : DemoSource) : Script Env EmitResult :=
  Call (CallWriteFile Env (demo_fileName sf +:+ ".js") (default "" (demo_text sf)) false None)
       (fun _ => Done (sc_emit sc sf)).

Definition demo_engine (sc : Scenario) : Engine Env := {|
  readConfigFile := fun _ => mret {| config := Some tt; error := None |};
  config_extensions := fun _ =>
    Some ((fun entry => (fst (fst entry), snd (fst entry))) <$> sc_extensions sc);
  delete_extensions := fun c => c;
  parseJsonConfigFileContent := fun _ _ =>
    mret {| parsed_options := sc_outDir sc; fileNames := sc_roots sc; errors := [] |};
  createCompilerHost := fun _ setParentNodes => demo_host (sc_files sc) setParentNodes;
  createProgram := fun roots _ => demo_createProgram roots [];
  resolveModuleName := fun moduleName _ _ _ => mret (sc_resolve sc moduleName);
  getOptionsDiagnostics := fun _ => [];
  getGlobalDiagnostics := fun _ => [];
  getSourceFiles := fun program => program;
  getPreEmitDiagnostics := fun _ _ => [];
  emit := fun _ sf => demo_emit sc sf;
  require_resolve := fun id => Some ("node_modules/" +:+ id);
  module_default := fun file =>
    snd <$> List.find (fun entry => bool_decide ("node_modules/" +:+ fst (fst entry) = file))
              (sc_extensions sc);
|}.

(** An extension with no hook. *)
Definition no_hooks (id : string) : Extension Env := {|
  options := {| genDir := None |};
  preProcess := None; postProcess := None; codegen := None; check_hook := None;
  name := id; loadPath := "";
|}.

Definition demo_diagnostic (c : DiagnosticCategory) (text : string) : Diagnostic :=
  {| category := c; file := None; start := 0; messageText := text |}.

(** An extension whose [preProcess] appends a marker to the text of the
    source file it is given and reports one diagnostic, and whose
    [postProcess] appends the marker to the output. *)
Definition appending (id marker : string) : Extension Env := {|
  options := {| genDir := None |};
  preProcess := Some (fun _ sf =>
    {| content := default "" (sf ≫= demo_text) +:+ marker;
       diagnostics := [Some (demo_diagnostic Message marker)] |});
  postProcess := Some (fun _ data => data +:+ marker);
  codegen := None; check_hook := None;
  name := id; loadPath := "";
|}.

(** An extension whose [preProcess] tells whether it was given a program. *)
Definition probing (id : string) : Extension Env := {|
  options := {| genDir := None |};
  preProcess := Some (fun program _ =>
    {| content := if program is Some _ then "program assigned" else "program undefined";
       diagnostics := [] |});
  postProcess := None; codegen := None; check_hook := None;
  name := id; loadPath := "";
|}.

(** An extension whose [codegen] writes one file. *)
Definition generating (id : string) (dir : option string) : Extension Env := {|
  options := {| genDir := dir |};
  preProcess := None; postProcess := None;
  codegen := Some (fun write => write "gen.ts" "export {}");
  check_hook := None;
  name := id; loadPath := "";
|}.

Definition configured (ext : Extension Env) : string * ExtensionOptions * Extension Env :=
  (name ext, options ext, ext).

Definition demo_parsed (out : option string) (roots : list string) : ParsedCommandLine :=
  {| parsed_options := (out : @CompilerOptions demo_data); fileNames := roots; errors := [] |}.

Definition emitted_cleanly (sf : DemoSource) : EmitResult :=
  {| emit_diagnostics := []; emitSkipped := false |}.

(** One root file and an extension that probes the program reference. *)
Definition sc_probe : Scenario := {|
  sc_files := [("a.ts", "let a")];
  sc_roots := ["a.ts"];
  sc_outDir := Some "out";
  sc_extensions := [configured (probing "probe")];
  sc_resolve := fun _ => None;
  sc_emit := emitted_cleanly;
|}.

(** One root file, no extension, and an emission that reports an error
    diagnostic without being skipped. *)
Definition sc_emit_error : Scenario := {|
  sc_files := [("a.ts", "let a")];
  sc_roots := ["a.ts"];
  sc_outDir := Some "out";
  sc_extensions := [];
  sc_resolve := fun _ => None;
  sc_emit := fun _ =>
    {| emit_diagnostics := [Some (demo_diagnostic Error "Cannot write file")];
       emitSkipped := false |};
|}.

(** Two specifiers of the same file and one that does not resolve. *)
Definition demo_resolve (moduleName : string) : option string :=
  if bool_decide (moduleName = "./a") then Some "/src/a.ts"
  else if bool_decide (moduleName = "../src/a") then Some "/src/a.ts"
  else None.

Definition sc_plain : Scenario := {|
  sc_files := [("a.ts", "let a")];
  sc_roots := ["a.ts"];
  sc_outDir := None;
  sc_extensions := [];
  sc_resolve := demo_resolve;
  sc_emit := emitted_cleanly;
|}.

End Demo.

(** ** Functions used to state the properties *)

Section Describing.
Context `{ED : EngineData} {B : Type} `{ND : !Node B}.

(** The line [enabled] logs for one extension. *)
Definition enabled_message (extensionPoint : ExtensionPoint) (ext : Extension B) : string :=
  if provides extensionPoint ext then
    "Executing " +:+ extensionPoint_name extensionPoint +:+ " from extension " +:+ name ext
  else
    "Extension " +:+ name ext +:+ " does not provide " +:+ extensionPoint_name extensionPoint.

(** The environment after [extensions.filter(enabled(extensionPoint))]. *)
Definition enabled_log (extensionPoint : ExtensionPoint) (exts : list (Extension B)) (b : B) : B :=
  fold_left (fun b ext => console_log [enabled_message extensionPoint ext] b) exts b.

(** The extensions that provide a hook, in their configured order. *)
Definition enabled_extensions (extensionPoint : ExtensionPoint) (exts : list (Extension B))
  : list (Extension B) :=
  List.filter (provides extensionPoint) exts.

(** What the [preProcess] hook of an extension returns, when it has one. *)
Definition preProcess_result (program : option Program) (sourceFile : option SourceFile)
    (ext : Extension B) : option PreProcessResult :=
  (fun hook => hook program sourceFile) <$> preProcess ext.

(** The diagnostics returned by the hooks of a list of extensions, in order. *)
Definition preProcess_diagnostics (program : option Program) (sourceFile : option SourceFile)
    (exts : list (Extension B)) : DiagArray :=
  flat_map (fun ext => default [] (diagnostics <$> preProcess_result program sourceFile ext)) exts.

(** The text the source-retrieval loop ends with: each hook overwrites it. *)
Definition preProcess_text (program : option Program) (sourceFile : option SourceFile)
    (exts : list (Extension B)) (text : option string) : option string :=
  fold_left (fun text ext =>
    match preProcess_result program sourceFile ext with
    | Some result => Some (content result)
    | None => text
    end) exts text.

(** The hook entries the loop records. *)
Definition preProcess_events (program : option Program) (exts : list (Extension B))
  : list HostEvent :=
  (fun ext => PreProcessCalled (name ext) program) <$> enabled_extensions PreProcessPoint exts.

(** The host after a source retrieval that ran the hooks of [exts]. *)
Definition after_preProcess (h : ExtCompilerHostState) (sourceFile : option SourceFile)
    (exts : list (Extension B)) : ExtCompilerHostState :=
  {| host_diagnostics :=
       host_diagnostics h ++ preProcess_diagnostics (host_program h) sourceFile exts;
     host_program := host_program h;
     reverseMap := reverseMap h;
     ghost_events := ghost_events h ++ preProcess_events (host_program h) exts |}.

(** Content threaded through a list of [postProcess] hooks, left to right. *)
Definition postProcess_chain (fileName : string) (hooks : list (string -> string -> string))
    (data : string) : string :=
  fold_left (fun data hook => hook fileName data) hooks data.

(** Whether a specifier resolves to a given path, for a resolution table. *)
Definition resolves_to (resolve : string -> option ResolvedModule) (path moduleName : string)
  : bool :=
  bool_decide (resolvedFileName <$> resolve moduleName = Some path).

(** The specifier most recently processed among those resolving to [path]. *)
Definition last_resolving (resolve : string -> option ResolvedModule) (path : string)
    (moduleNames : list string) : option string :=
  last (List.filter (resolves_to resolve path) moduleNames).

(** A host whose reverse map is replaced. *)
Definition with_reverseMap (m : gmap string string) (h : ExtCompilerHostState)
  : ExtCompilerHostState :=
  {| host_diagnostics := host_diagnostics h;
     host_program := host_program h;
     reverseMap := m;
     ghost_events := ghost_events h |}.

(** The reverse map after the requests of [moduleNames], for a resolution table. *)
Definition reverseMap_after (resolve : string -> option ResolvedModule)
    (moduleNames : list string) (m : gmap string string) : gmap string string :=
  fold_left (fun m moduleName =>
    match resolve moduleName with
    | Some resolved => <[resolvedFileName resolved := moduleName]> m
    | None => m
    end) moduleNames m.

(** The one member [DelegatingHost] copies instead of forwarding. *)
Definition copied {A : Type} (c : HostCall B A) : bool :=
  match c with
  | CallWriteFile _ _ _ _ _ => true
  | _ => false
  end.

(** A hook entry that was given [program] as its program reference. *)
Definition called_with (program : option Program) (e : HostEvent) : Prop :=
  exists extension, e = PreProcessCalled extension program.

(** The ordering the deferred wiring is meant to give: every hook entry is
    preceded by an assignment of the program member. *)
Definition assignment_precedes_hooks (events : list HostEvent) : Prop :=
  forall i extension arg,
    events !! i = Some (PreProcessCalled extension arg) ->
    exists j p, j < i /\ events !! j = Some (ProgramAssigned p).

(** Between two states of the host: the program member is the same, and
    the only events added are hook entries that were given that member. *)
Definition hooks_only (h h' : ExtCompilerHostState) : Prop :=
  host_program h' = host_program h
  /\ exists added, ghost_events h' = ghost_events h ++ added
                  /\ Forall (called_with (host_program h)) added.

(** A computation that, however it ends, changes the host's program member
    not at all and its events by hook entries only. *)
Definition keeps {A : Type} (m : St (World (B := B)) A) : Prop :=
  forall w, hooks_only (fst w) (fst (snd (m w))).

(** A diagnostic of fatal severity occurs in the list. *)
Definition has_fatal (ds : DiagArray) : Prop :=
  exists d, Some d ∈ ds /\ category d = Error.

End Describing.

Section DescribingEmission.
Context `{ED : EngineData} {B : Type} `{ND : !Node B} `{EN : !Engine B}.

(** The emissions of a list of targets, in order, through the host of the
    run; it stops at the first emission that does not return. *)
Fixpoint emit_all (parsed : ParsedCommandLine) (exts : list (Extension B)) (program : Program)
    (targets : list SourceFile) : St World (list EmitResult) :=
  match targets with
  | [] => mret []
  | sf :: rest =>
      result ← run_script (compilerHost parsed exts) (emit program sf);
      results ← emit_all parsed exts program rest;
      mret (result :: results)
  end.

End DescribingEmission.

(** ** The command line entry *)

Section CommandLine.
Context `{ED : EngineData} {B : Type} `{ND : !Node B} `{EN : !Engine B}.



End CommandLine.

(** ** More functions used to state properties *)

Section DescribingMore.
Context `{ED : EngineData} {B : Type} `{ND : !Node B} `{EN : !Engine B}.

(** The resolved file of the module one configuration entry loads, when it
    loads and has a default export. *)
Definition load_target (entry : string * ExtensionOptions) : option string :=
  match require_resolve (fst entry) with
  | Some file => if module_default file is Some _ then Some file else None
  | None => None
  end.

(** The default export of the module at [file] once the entry has
    configured it. *)
Definition configured_object (entry : string * ExtensionOptions) (file : string)
  : option (Extension B) :=
  (fun ext => {| options := snd entry;
                 preProcess := preProcess ext;
                 postProcess := postProcess ext;
                 codegen := codegen ext;
                 check_hook := check_hook ext;
                 name := fst entry;
                 loadPath := file |}) <$> module_default file.

(** The entry that configured the module at [file] last. *)
Definition last_loading (entries : list (string * ExtensionOptions)) (file : string)
  : option (string * ExtensionOptions) :=
  last (List.filter (fun entry => bool_decide (load_target entry = Some file)) entries).

(** The objects after the loads of a list of entries. *)
Definition objects_after (entries : list (string * ExtensionOptions))
    (objects : gmap string (Extension B)) : gmap string (Extension B) :=
  fold_left (fun objects entry =>
    match load_target entry with
    | Some file =>
        match configured_object entry file with
        | Some ext => <[file := ext]> objects
        | None => objects
        end
    | None => objects
    end) entries objects.

(** The environment after the loads of a list of entries: one error line
    per entry whose module does not load. *)
Definition load_log (entries : list (string * ExtensionOptions)) (b : B) : B :=
  fold_left (fun b entry =>
    match load_target entry with
    | Some _ => b
    | None => console_error ["Unable to load extension " +:+ fst entry
                               +:+ ". Is the npm module installed?"] b
    end) entries b.

(** The operations [ExtCompilerHost] defines itself. *)
Definition overridden {A : Type} (c : HostCall B A) : bool :=
  match c with
  | CallGetSourceFile _ _ _ _ => true
  | CallWriteFile _ _ _ _ _ => true
  | CallResolveModuleNames _ _ _ => true
  | _ => false
  end.

(** A relation between the host before and after holds however the
    computation ends. *)
Definition preserved {A : Type} (R : relation ExtCompilerHostState)
    (m : St (World (B := B)) A) : Prop :=
  forall w, R (fst w) (fst (snd (m w))).

(** The accumulator is extended at its end and no key leaves the reverse map. *)
Definition grows (h h' : ExtCompilerHostState) : Prop :=
  host_diagnostics h `prefix_of` host_diagnostics h'
  /\ dom (reverseMap h) ⊆ dom (reverseMap h').

(** The accumulator and the program member are the same. *)
Definition same_diagnostics_program (h h' : ExtCompilerHostState) : Prop :=
  host_diagnostics h' = host_diagnostics h /\ host_program h' = host_program h.

(** The reverse map and the program member are the same. *)
Definition same_reverseMap_program (h h' : ExtCompilerHostState) : Prop :=
  reverseMap h' = reverseMap h /\ host_program h' = host_program h.

(** Every value the computation can return satisfies [P]. *)
Definition returns_only {S A : Type} (P : A -> Prop) (m : St S A) : Prop :=
  forall s a s', m s = (Normal a, s') -> P a.

End DescribingMore.

Section DemoMore.
Local Existing Instance demo_data.
Local Existing Instance demo_node.

(** The concrete engine with a project file that cannot be read. *)
Definition demo_engine_unreadable : Engine Env :=
  let base := demo_engine sc_plain in {|
    readConfigFile := fun _ =>
      mret {| config := None;
              error := Some (demo_diagnostic Error "Cannot read file") |};
    config_extensions := config_extensions (Engine := base);
    delete_extensions := delete_extensions (Engine := base);
    parseJsonConfigFileContent := parseJsonConfigFileContent (Engine := base);
    createCompilerHost := createCompilerHost (Engine := base);
    createProgram := createProgram (Engine := base);
    resolveModuleName := resolveModuleName (Engine := base);
    getOptionsDiagnostics := getOptionsDiagnostics (Engine := base);
    getGlobalDiagnostics := getGlobalDiagnostics (Engine := base);
    getSourceFiles := getSourceFiles (Engine := base);
    getPreEmitDiagnostics := getPreEmitDiagnostics (Engine := base);
    emit := emit (Engine := base);
    require_resolve := require_resolve (Engine := base);
    module_default := module_default (Engine := base);
  |}.

(** The source file the concrete host returns for "a.ts". *)
Definition demo_source : DemoSource :=
  createSourceFile "a.ts" "let a" 1 true.

End DemoMore.

(** * Properties *)

(** ** Diagnostic validation *)

Section CheckProperties.
Context `{ED : EngineData} {B : Type} `{ND : !Node B}.

Lemma first_element_cons (d : option Diagnostic) (rest : DiagArray) :
  first_element (d :: rest) = d.
Proof. reflexivity. Qed.

Lemma first_element_is_Some (ds : DiagArray) :
  is_Some (first_element ds) <-> exists d rest, ds = Some d :: rest.
Proof.
  split.
  - destruct ds as [|[d|] rest]; intros [x Hx]; try discriminate.
    exists d, rest. reflexivity.
  - intros (d & rest & ->). exists d. reflexivity.
Qed.

(** When the guard of [check] holds, the routine ends the run: by
    [process.exit(1)] after reporting, or by the exception of the formatter
    when a later element is absent. *)
Lemma check_head_present (d : Diagnostic) (rest : DiagArray) (b : B) :
  check (Some (Some d :: rest)) b =
    match formatDiagnostics (Some d :: rest) with
    | Normal text => (Exited 1, console_error ["FATAL"; text] b)
    | Thrown e => (Thrown e, b)
    | Exited c => (Exited c, b)
    end.
Proof.
  unfold check. cbn [length Nat.eqb negb andb].
  rewrite bool_decide_eq_true_2 by (rewrite first_element_cons; eauto).
  unfold mbind, St_bind, of_outcome.
  destruct (formatDiagnostics (Some d :: rest)); reflexivity.
Qed.

Lemma check_head_absent (ds : DiagArray) (b : B) :
  first_element ds = None -> check (Some ds) b = (Normal tt, b).
Proof.
  intros H. unfold check.
  rewrite (bool_decide_eq_false_2 (is_Some (first_element ds))).
  - rewrite andb_false_r. reflexivity.
  - rewrite H. intros [x Hx]. discriminate.
Qed.

Lemma check_aborted_head (d : Diagnostic) (rest : DiagArray) (b : B) :
  aborted (fst (check (Some (Some d :: rest)) b)) = true.
Proof.
  rewrite check_head_present.
  destruct (formatDiagnostics (Some d :: rest)); reflexivity.
Qed.

Lemma check_normal (ds : option DiagArray) (b : B) (u : unit) (b' : B) :
  check ds b = (Normal u, b') -> b' = b /\ (forall l, ds = Some l -> first_element l = None).
Proof.
  destruct ds as [[|[d|] rest]|]; intros H.
  - injection H as _ <-. split; [reflexivity|]. intros l [= <-]. reflexivity.
  - pose proof (check_aborted_head d rest b) as Ha. rewrite H in Ha. discriminate.
  - rewrite check_head_absent in H by reflexivity. injection H as _ <-.
    split; [reflexivity|]. intros l [= <-]. reflexivity.
  - injection H as _ <-. split; [reflexivity|]. intros l; discriminate.
Qed.

(** C9.  The abort check ends the run exactly when its argument is a
    non-null, non-empty list whose first element is present.  A list whose
    first element is absent lets the run continue whatever follows it, and
    so do the null list and the empty list; in these cases nothing is
    reported. *)
Theorem check_aborts_iff_first_present (ds : option DiagArray) (b : B) :
  (aborted (fst (check ds b)) = true <-> exists d rest, ds = Some (Some d :: rest))
  /\ (forall later, check (Some (None :: later)) b = (Normal tt, b))
  /\ check None b = (Normal tt, b)
  /\ check (Some []) b = (Normal tt, b).
Proof.
  split; [|split; [|split]].
  - split.
    + destruct ds as [[|[d|] rest]|].
      * cbn. discriminate.
      * intros _. exists d, rest. reflexivity.
      * rewrite check_head_absent by reflexivity. discriminate.
      * cbn. discriminate.
    + intros (d & rest & ->). apply check_aborted_head.
  - intros later. apply check_head_absent. reflexivity.
  - reflexivity.
  - reflexivity.
Qed.

(** C5, as the code has it.  A validation step never looks at the severity:
    it ends the run exactly when the first element of the pending list is a
    diagnostic, for every category of that diagnostic, and when every
    element is present it does so by [process.exit(1)]. *)
Theorem check_aborts_whatever_severity (ds : DiagArray) (b : B) :
  (aborted (fst (check (Some ds) b)) = true <-> is_Some (first_element ds))
  /\ (forall (c : DiagnosticCategory) f pos text rest,
        aborted (fst (check (Some (Some {| category := c; file := f; start := pos;
                                            messageText := text |} :: rest)) b)) = true)
  /\ (forall (c : DiagnosticCategory) f pos text,
        fst (check (Some [Some {| category := c; file := f; start := pos;
                                  messageText := text |}]) b) = Exited 1).
Proof.
  split; [|split].
  - rewrite first_element_is_Some. split.
    + destruct ds as [|[d|] rest].
      * cbn. discriminate.
      * intros _. exists d, rest. reflexivity.
      * rewrite check_head_absent by reflexivity. discriminate.
    + intros (d & rest & ->). apply check_aborted_head.
  - intros c f pos text rest. apply check_aborted_head.
  - intros c f pos text. rewrite check_head_present. reflexivity.
Qed.

End CheckProperties.

(** ** The delegating host *)

Section DelegatingProperties.
Context `{ED : EngineData} {B S : Type}.

(** Every operation but [writeFile] is forwarded: invoked on a delegating
    host it is the computation the base host performs for the same
    invocation, an absent optional member failing alike. *)
Lemma DelegatingHost_forwards (delegate : CompilerHost B S) (A : Type)
    (c : HostCall B A) (s : S) :
  copied c = false ->
  perform (DelegatingHost delegate) c s = perform delegate c s.
Proof. intros Hc. destruct c; try discriminate; reflexivity. Qed.

(** [writeFile] is not forwarded: the base host's function runs with the
    delegating host as its receiver. *)
Lemma DelegatingHost_writeFile (delegate : CompilerHost B S) (fileName data : string)
    (writeByteOrderMark : bool) (onError : option (OnError B)) (s : S) :
  perform (DelegatingHost delegate)
    (CallWriteFile B fileName data writeByteOrderMark onError) s
  = writeFile_function delegate (Datatypes.S (object_id delegate))
      fileName data writeByteOrderMark onError s.
Proof. reflexivity. Qed.

End DelegatingProperties.

(** ** The extension-aware host *)

Section MonadFacts.
Context {S : Type}.

Lemma bind_run {A C : Type} (m : St S A) (f : A -> St S C) (s : S) :
  (m ≫= f) s =
    match m s with
    | (Normal a, s') => f a s'
    | (Thrown e, s') => (Thrown e, s')
    | (Exited c, s') => (Exited c, s')
    end.
Proof. reflexivity. Qed.

Lemma bind_normal {A C : Type} (m : St S A) (f : A -> St S C) (s s' : S) (a : A) :
  m s = (Normal a, s') -> (m ≫= f) s = f a s'.
Proof. intros H. rewrite bind_run, H. reflexivity. Qed.

Lemma forEach_app {A T : Type} (body : A -> T -> St S T) (xs ys : list A) (acc : T) (s : S) :
  forEach body (xs ++ ys) acc s = (forEach body xs acc ≫= forEach body ys) s.
Proof.
  revert acc s. induction xs as [|x xs IH]; intros acc s.
  - reflexivity.
  - cbn [app forEach]. rewrite !bind_run.
    destruct (body x acc s) as [[acc'|e|c] s']; [|reflexivity..].
    rewrite IH, bind_run. reflexivity.
Qed.

End MonadFacts.

Section HostProperties.
Context `{ED : EngineData} {B : Type} `{ND : !Node B} `{EN : !Engine B}.

Lemma lift_run {A : Type} (m : St B A) (h : ExtCompilerHostState) (b : B) :
  lift m (h, b) = (fst (m b), (h, snd (m b))).
Proof. unfold lift. cbn. destruct (m b). reflexivity. Qed.

Lemma enabled_run (p : ExtensionPoint) (ext : Extension B) (b : B) :
  enabled p ext b = (Normal (provides p ext), console_log [enabled_message p ext] b).
Proof.
  unfold enabled, enabled_message. destruct (provides p ext); reflexivity.
Qed.

Lemma filterSt_enabled (p : ExtensionPoint) (exts : list (Extension B)) (b : B) :
  filterSt (enabled p) exts b = (Normal (enabled_extensions p exts), enabled_log p exts b).
Proof.
  revert b. induction exts as [|ext exts IH]; intros b.
  - reflexivity.
  - cbn [filterSt]. rewrite bind_run, enabled_run, bind_run, IH.
    cbn. destruct (provides p ext); reflexivity.
Qed.

Lemma enabled_extensions_provide (p : ExtensionPoint) (exts : list (Extension B)) :
  Forall (fun ext => provides p ext = true) (enabled_extensions p exts).
Proof.
  apply Forall_forall. intros ext Hin.
  apply list_elem_of_In, filter_In in Hin. apply Hin.
Qed.

Lemma enabled_extensions_idemp (p : ExtensionPoint) (exts : list (Extension B)) :
  enabled_extensions p (enabled_extensions p exts) = enabled_extensions p exts.
Proof.
  unfold enabled_extensions. induction exts as [|ext exts IH]; [reflexivity|].
  cbn. destruct (provides p ext) eqn:E; cbn; rewrite ?E, IH; reflexivity.
Qed.

(** *** Source retrieval *)

Lemma provides_preProcess_false (ext : Extension B) :
  provides PreProcessPoint ext = false -> preProcess ext = None.
Proof.
  unfold provides. intros H. apply bool_decide_eq_false_1 in H.
  destruct (preProcess ext); [exfalso; eauto | reflexivity].
Qed.

Lemma provides_preProcess_true (ext : Extension B) :
  provides PreProcessPoint ext = true -> exists hook, preProcess ext = Some hook.
Proof. unfold provides. intros H. apply bool_decide_eq_true_1 in H as [hook E]. eauto. Qed.

Lemma preProcess_diagnostics_enabled program sf (exts : list (Extension B)) :
  preProcess_diagnostics program sf (enabled_extensions PreProcessPoint exts)
  = preProcess_diagnostics program sf exts.
Proof.
  unfold preProcess_diagnostics, enabled_extensions.
  induction exts as [|ext exts IH]; [reflexivity|].
  cbn [List.filter flat_map]. destruct (provides PreProcessPoint ext) eqn:E.
  - cbn [flat_map]. rewrite IH. reflexivity.
  - rewrite IH. unfold preProcess_result.
    rewrite (provides_preProcess_false ext E). reflexivity.
Qed.

Lemma preProcess_text_enabled program sf (exts : list (Extension B)) (text : option string) :
  preProcess_text program sf (enabled_extensions PreProcessPoint exts) text
  = preProcess_text program sf exts text.
Proof.
  unfold preProcess_text, enabled_extensions.
  revert text. induction exts as [|ext exts IH]; intros text; [reflexivity|].
  cbn [List.filter fold_left]. destruct (provides PreProcessPoint ext) eqn:E.
  - cbn [fold_left]. apply IH.
  - rewrite IH. unfold preProcess_result.
    rewrite (provides_preProcess_false ext E). reflexivity.
Qed.

Lemma after_preProcess_enabled h sf (exts : list (Extension B)) :
  after_preProcess h sf (enabled_extensions PreProcessPoint exts) = after_preProcess h sf exts.
Proof.
  unfold after_preProcess, preProcess_events.
  rewrite preProcess_diagnostics_enabled, enabled_extensions_idemp. reflexivity.
Qed.

Lemma after_preProcess_nil h sf : after_preProcess h sf (@nil (Extension B)) = h.
Proof.
  destruct h. unfold after_preProcess. cbn. rewrite !app_nil_r. reflexivity.
Qed.

Lemma after_preProcess_cons h sf (ext : Extension B) (exts : list (Extension B)) :
  after_preProcess (after_preProcess h sf [ext]) sf exts = after_preProcess h sf (ext :: exts).
Proof.
  unfold after_preProcess. cbn [host_diagnostics host_program reverseMap ghost_events].
  f_equal.
  - unfold preProcess_diagnostics. cbn [flat_map].
    rewrite app_nil_r, app_assoc. reflexivity.
  - unfold preProcess_events, enabled_extensions. cbn [List.filter].
    destruct (provides PreProcessPoint ext); cbn [fmap list_fmap app];
      rewrite <- app_assoc; reflexivity.
Qed.

Lemma preProcess_each_run sf (ext : Extension B) hook (text : option string) h (b : B) :
  preProcess ext = Some hook ->
  preProcess_each sf ext text (h, b)
  = (Normal (Some (content (hook (host_program h) sf))), (after_preProcess h sf [ext], b)).
Proof.
  intros E. unfold preProcess_each. rewrite E. cbn.
  unfold after_preProcess, preProcess_events, preProcess_diagnostics, preProcess_result,
    enabled_extensions.
  cbn. unfold provides. rewrite E, bool_decide_eq_true_2 by eauto.
  cbn. rewrite !app_nil_r. reflexivity.
Qed.

Lemma preProcess_loop sf (exts : list (Extension B)) :
  Forall (fun ext => provides PreProcessPoint ext = true) exts ->
  forall (text : option string) h (b : B),
    forEach (preProcess_each sf) exts text (h, b)
    = (Normal (preProcess_text (host_program h) sf exts text), (after_preProcess h sf exts, b)).
Proof.
  induction 1 as [|ext exts Hext _ IH]; intros text h b.
  - cbn. rewrite after_preProcess_nil. reflexivity.
  - unfold provides in Hext. apply bool_decide_eq_true_1 in Hext as [hook E].
    cbn [forEach]. rewrite (bind_normal _ _ _ _ _ (preProcess_each_run sf ext hook text h b E)).
    rewrite IH, after_preProcess_cons. cbn.
    unfold preProcess_result at 2. rewrite E. reflexivity.
Qed.

(** What a source retrieval computes once the base host has answered. *)
Lemma getSourceFile_run (delegate : CompilerHost B B)
    (exts : list (Extension B)) (fileName : string) (lv : ScriptTarget)
    (onError : option (OnError B)) h (b b1 b2 : B) sf text :
  ends_with ".d.ts" fileName = false ->
  getSourceFile delegate fileName lv onError b = (Normal sf, b1) ->
  readFile delegate fileName b1 = (Normal text, b2) ->
  ExtCompilerHost_getSourceFile delegate exts fileName lv onError (h, b)
  = (match ts_createSourceFile fileName
             (preProcess_text (host_program h) sf exts text) lv true with
     | Normal parsed => Normal (Some parsed)
     | Thrown e => Thrown e
     | Exited c => Exited c
     end,
     (after_preProcess h sf exts, enabled_log PreProcessPoint exts b2)).
Proof.
  intros Hd Hsf Hread. unfold ExtCompilerHost_getSourceFile.
  rewrite bind_run, lift_run, Hsf. cbn [fst snd]. rewrite Hd.
  rewrite bind_run, lift_run. cbn [DelegatingHost readFile]. rewrite Hread. cbn [fst snd].
  rewrite bind_run, lift_run, filterSt_enabled. cbn [fst snd].
  rewrite bind_run, preProcess_loop by apply enabled_extensions_provide.
  rewrite preProcess_text_enabled, after_preProcess_enabled.
  rewrite bind_run. unfold of_outcome.
  destruct (ts_createSourceFile _ _ _ _); reflexivity.
Qed.

End HostProperties.

Section HostTheorems.
Context `{ED : EngineData} {B : Type} `{ND : !Node B} `{EN : !Engine B}.

(** C2.  On a unit that is not a declaration file, once the base host has
    returned the parsed unit and the raw text, and when at least one
    extension provides [preProcess]: the accumulator grows by the
    diagnostics of every enabled extension, in order, while the unit that is
    returned is the parse of the content of the last enabled extension
    alone. *)
Theorem getSourceFile_all_diagnostics_last_content (delegate : CompilerHost B B)
    (exts : list (Extension B)) (fileName : string) (lv : ScriptTarget)
    (onError : option (OnError B)) (h : ExtCompilerHostState) (b b1 b2 : B)
    (sf : option SourceFile) (text : option string)
    (front : list (Extension B)) (last_ext : Extension B) :
  ends_with ".d.ts" fileName = false ->
  getSourceFile delegate fileName lv onError b = (Normal sf, b1) ->
  readFile delegate fileName b1 = (Normal text, b2) ->
  enabled_extensions PreProcessPoint exts = front ++ [last_ext] ->
  let run := ExtCompilerHost_getSourceFile delegate exts fileName lv onError (h, b) in
  host_diagnostics (fst (snd run))
  = host_diagnostics h
      ++ preProcess_diagnostics (host_program h) sf (front ++ [last_ext])
  /\ Forall (fun ext => is_Some (preProcess_result (host_program h) sf ext))
            (front ++ [last_ext])
  /\ exists result,
       preProcess_result (host_program h) sf last_ext = Some result
       /\ fst run = Normal (Some (createSourceFile fileName (content result) lv true)).
Proof.
  intros Hd Hsf Hread Hen run.
  assert (Hall : Forall (fun ext => provides PreProcessPoint ext = true) (front ++ [last_ext])).
  { rewrite <- Hen. apply enabled_extensions_provide. }
  assert (Hlast : exists hook, preProcess last_ext = Some hook).
  { apply provides_preProcess_true. rewrite Forall_app, Forall_singleton in Hall. apply Hall. }
  destruct Hlast as [hook Hhook].
  subst run. rewrite (getSourceFile_run delegate exts fileName lv onError h b b1 b2 sf text Hd Hsf Hread).
  cbn [fst snd after_preProcess host_diagnostics].
  split; [|split].
  - rewrite <- Hen, preProcess_diagnostics_enabled. reflexivity.
  - eapply Forall_impl; [exact Hall|]. intros ext Hp.
    destruct (provides_preProcess_true ext Hp) as [g Hg].
    unfold preProcess_result. rewrite Hg. eauto.
  - exists (hook (host_program h) sf). split.
    + unfold preProcess_result. rewrite Hhook. reflexivity.
    + rewrite <- preProcess_text_enabled, Hen. unfold preProcess_text.
      rewrite fold_left_app. cbn [fold_left].
      unfold preProcess_result at 1. rewrite Hhook. reflexivity.
Qed.


(** *** Output writing *)

Lemma postProcess_loop (fileName : string) (exts : list (Extension B)) (data : string)
    (w : World) :
  forEach (postProcess_each fileName) (enabled_extensions PostProcessPoint exts) data w
  = (Normal (postProcess_chain fileName (omap postProcess exts) data), w).
Proof.
  unfold enabled_extensions, postProcess_chain.
  revert data. induction exts as [|ext exts IH]; intros data; [reflexivity|].
  cbn [List.filter omap list_omap]. unfold provides at 1.
  destruct (postProcess ext) as [hook|] eqn:E.
  - rewrite bool_decide_eq_true_2 by eauto.
    cbn [forEach fold_left]. rewrite bind_run.
    unfold postProcess_each at 1. rewrite E. cbn [call_member]. apply IH.
  - rewrite bool_decide_eq_false_2 by (intros [x Hx]; discriminate). apply IH.
Qed.

(** What an output write computes. *)
Lemma writeFile_run (delegate : CompilerHost B B)
    (exts : list (Extension B)) (fileName data : string) (writeByteOrderMark : bool)
    (onError : option (OnError B)) (h : ExtCompilerHostState) (b : B) :
  ExtCompilerHost_writeFile delegate exts fileName data writeByteOrderMark onError (h, b)
  = lift (writeFile delegate fileName
            (postProcess_chain fileName (omap postProcess exts) data)
            writeByteOrderMark onError)
         (h, enabled_log PostProcessPoint exts b).
Proof.
  unfold ExtCompilerHost_writeFile.
  rewrite bind_run, lift_run, filterSt_enabled. cbn [fst snd].
  rewrite bind_run, postProcess_loop. reflexivity.
Qed.

(** C4.  An output write threads the content through the [postProcess] hooks
    of the extensions that provide one, in their configured order, each hook
    receiving the destination path and the output of the hook before it; the
    base host's write is then invoked once, with the same path, the final
    content, the same byte-order-mark flag and the same error callback.
    Besides that call only the log lines of [enabled] are produced, and the
    members of the host are unchanged. *)
Theorem writeFile_threads_postProcess (delegate : CompilerHost B B)
    (exts : list (Extension B)) (fileName data : string) (writeByteOrderMark : bool)
    (onError : option (OnError B)) (h : ExtCompilerHostState) (b : B) :
  ExtCompilerHost_writeFile delegate exts fileName data writeByteOrderMark onError (h, b)
  = lift (writeFile delegate fileName
            (fold_left (fun text hook => hook fileName text) (omap postProcess exts) data)
            writeByteOrderMark onError)
         (h, enabled_log PostProcessPoint exts b)
  /\ (forall front hook,
        omap postProcess exts = front ++ [hook] ->
        postProcess_chain fileName (omap postProcess exts) data
        = hook fileName (postProcess_chain fileName front data)).
Proof.
  split.
  - apply writeFile_run.
  - intros front hook E. rewrite E. unfold postProcess_chain.
    rewrite fold_left_app. reflexivity.
Qed.

(** *** No extension *)


(** A slip beside it: for a file the base host cannot read, the parser is
    handed an absent text and the retrieval ends in a [TypeError], where the
    base host and the declaration-file path return no source file. *)
Lemma unreadable_file_throws (delegate : CompilerHost B B) (exts : list (Extension B))
    (fileName : string) (lv : ScriptTarget) (onError : option (OnError B))
    (h : ExtCompilerHostState) (b b1 b2 : B) (sf : option SourceFile) :
  ends_with ".d.ts" fileName = false ->
  getSourceFile delegate fileName lv onError b = (Normal sf, b1) ->
  readFile delegate fileName b1 = (Normal None, b2) ->
  enabled_extensions PreProcessPoint exts = [] ->
  fst (ExtCompilerHost_getSourceFile delegate exts fileName lv onError (h, b))
  = Thrown TypeError.
Proof.
  intros Hd Hsf Hread Hnone.
  rewrite (getSourceFile_run delegate exts fileName lv onError h b b1 b2 sf None
             Hd Hsf Hread).
  rewrite <- preProcess_text_enabled, Hnone. reflexivity.
Qed.


(** *** Module resolution *)

Lemma with_reverseMap_same (h : ExtCompilerHostState) : with_reverseMap (reverseMap h) h = h.
Proof. destruct h. reflexivity. Qed.

Lemma resolve_loop (delegate : CompilerHost B B) (o : CompilerOptions)
    (containingFile : string) (resolve : string -> option ResolvedModule)
    (moduleNames : list string) :
  (forall moduleName b, moduleName ∈ moduleNames ->
     resolveModuleName moduleName containingFile o delegate b
     = (Normal (resolve moduleName), b)) ->
  forall (result : list ResolvedModule) (h : ExtCompilerHostState) (b : B),
    forEach (resolve_each delegate o containingFile) moduleNames result (h, b)
    = (Normal (result ++ omap resolve moduleNames),
       (with_reverseMap (reverseMap_after resolve moduleNames (reverseMap h)) h, b)).
Proof.
  induction moduleNames as [|n ns IH]; intros Hres result h b.
  - cbn. rewrite app_nil_r, with_reverseMap_same. reflexivity.
  - cbn [forEach]. rewrite bind_run. unfold resolve_each at 1.
    rewrite bind_run, lift_run, (Hres n b) by left. cbn [fst snd].
    cbn [omap list_omap reverseMap_after fold_left].
    destruct (resolve n) as [resolved|] eqn:E.
    + rewrite bind_run. unfold modify_host, effect. cbn -[forEach].
      rewrite IH by (intros; apply Hres; right; assumption).
      cbn. rewrite <- app_assoc. reflexivity.
    + cbn -[forEach]. rewrite IH by (intros; apply Hres; right; assumption). reflexivity.
Qed.

Lemma reverseMap_after_lookup (resolve : string -> option ResolvedModule)
    (moduleNames : list string) (m : gmap string string) (path : string) :
  reverseMap_after resolve moduleNames m !! path
  = match last_resolving resolve path moduleNames with
    | Some moduleName => Some moduleName
    | None => m !! path
    end.
Proof.
  unfold reverseMap_after, last_resolving.
  revert m. induction moduleNames as [|n ns IH]; intros m; [reflexivity|].
  cbn [fold_left List.filter]. rewrite IH. unfold resolves_to at 2.
  destruct (resolve n) as [resolved|] eqn:E; cbn [fmap option_fmap option_map].
  - destruct (decide (resolvedFileName resolved = path)) as [->|Hne].
    + rewrite bool_decide_eq_true_2 by reflexivity. rewrite last_cons.
      destruct (last (List.filter _ ns)); [reflexivity|]. apply lookup_insert_eq.
    + rewrite bool_decide_eq_false_2 by congruence.
      destruct (last (List.filter _ ns)); [reflexivity|].
      apply lookup_insert_ne. assumption.
  - rewrite bool_decide_eq_false_2 by discriminate. reflexivity.
Qed.

Lemma omap_shorter {A C : Type} (f : A -> option C) (l : list A) :
  length (omap f l) <= length l
  /\ ((exists x, x ∈ l /\ f x = None) -> length (omap f l) < length l).
Proof.
  induction l as [|x l [IHle IHlt]].
  - split; [reflexivity|]. intros (x & Hx & _). inversion Hx.
  - cbn [omap list_omap]. destruct (f x) eqn:E; cbn [length].
    + split; [lia|]. intros (y & Hy & Hn).
      apply elem_of_cons in Hy as [->|Hy]; [congruence|].
      assert (length (omap f l) < length l) by eauto. lia.
    + split; lia.
Qed.

(** C6.  When each requested specifier has a definite resolution and
    resolving leaves the environment alone: the result lists the resolved
    modules of the specifiers that resolve, in request order, and nothing
    for the others, so it is never longer than the request and is strictly
    shorter as soon as one specifier does not resolve; and afterwards the
    reverse map holds, for every path, the last requested specifier that
    resolved to that path, or its earlier entry when none did. *)
Theorem resolveModuleNames_drops_and_overwrites (delegate : CompilerHost B B)
    (o : CompilerOptions) (moduleNames : list string) (containingFile : string)
    (resolve : string -> option ResolvedModule) (h : ExtCompilerHostState) (b : B) :
  (forall moduleName b', moduleName ∈ moduleNames ->
     resolveModuleName moduleName containingFile o delegate b'
     = (Normal (resolve moduleName), b')) ->
  let run := ExtCompilerHost_resolveModuleNames delegate o moduleNames containingFile (h, b) in
  fst run = Normal (omap resolve moduleNames)
  /\ length (omap resolve moduleNames) <= length moduleNames
  /\ ((exists moduleName, moduleName ∈ moduleNames /\ resolve moduleName = None) ->
      length (omap resolve moduleNames) < length moduleNames)
  /\ (forall path,
        reverseMap (fst (snd run)) !! path
        = match last_resolving resolve path moduleNames with
          | Some moduleName => Some moduleName
          | None => reverseMap h !! path
          end).
Proof.
  intros Hres run. subst run. unfold ExtCompilerHost_resolveModuleNames.
  rewrite (resolve_loop delegate o containingFile resolve moduleNames Hres).
  cbn [fst snd with_reverseMap reverseMap app].
  destruct (omap_shorter resolve moduleNames) as [Hle Hlt].
  repeat split; try assumption.
  intros path. apply reverseMap_after_lookup.
Qed.

End HostTheorems.

(** ** The orchestrator *)

Section OrchestratorTheorems.
Context `{ED : EngineData} {B : Type} `{ND : !Node B} `{EN : !Engine B}.

(** *** Code generation *)

(** C10, as the code has it.  The write callback handed to a codegen hook
    uses [genDir] only when it is a non-empty string: the file is then
    written at the base path joined with [genDir] joined with the relative
    path, whatever the engine's own output directory.  A bag with no
    [genDir], or with an empty one, falls back to the engine's output
    directory joined with the relative path; when the resolved options have
    no [outDir] either, the callback raises a [TypeError] at the join and
    leaves the environment as it was: no directory is made, no file
    written. *)
Theorem codegen_writeFile_destination (basePath : string) (parsed : ParsedCommandLine)
    (ext : Extension B) (filename source : string) (b : B) :
  (genDir (options ext) = None \/ genDir (options ext) = Some "" ->
   outDir (parsed_options parsed) = None ->
   codegen_writeFile basePath parsed ext filename source b = (Thrown TypeError, b))
  /\ (forall dir, genDir (options ext) = Some dir -> dir <> "" ->
      let dest := path_join_strings (path_join_strings basePath dir) filename in
      codegen_writeFile basePath parsed ext filename source b
      = (mkdirp_sync (path_dirname dest);;
         fs_writeFileSync dest source;;
         debug ("[tsc-ext] Wrote " +:+ dest)) b)
  /\ (forall out, genDir (options ext) = None \/ genDir (options ext) = Some "" ->
      outDir (parsed_options parsed) = Some out ->
      let dest := path_join_strings out filename in
      codegen_writeFile basePath parsed ext filename source b
      = (mkdirp_sync (path_dirname dest);;
         fs_writeFileSync dest source;;
         debug ("[tsc-ext] Wrote " +:+ dest)) b).
Proof.
  split; [|split].
  - intros [Hgen|Hgen] Hout; unfold codegen_writeFile; rewrite Hgen, Hout; reflexivity.
  - intros dir Hgen Hne dest. unfold codegen_writeFile. rewrite Hgen.
    unfold truthy_string. rewrite bool_decide_eq_false_2 by assumption. reflexivity.
  - intros out [Hgen|Hgen] Hout dest; unfold codegen_writeFile; rewrite Hgen, Hout;
      reflexivity.
Qed.

(** A [genDir] that is absent or the empty string is not used: the
    destination is then the engine's output directory joined with the
    relative path. *)
Lemma codegen_writeFile_fallback (basePath : string) (parsed : ParsedCommandLine)
    (ext : Extension B) (filename source : string) (b : B) :
  genDir (options ext) = None \/ genDir (options ext) = Some "" ->
  codegen_writeFile basePath parsed ext filename source b
  = (dest ← of_outcome (path_join (outDir (parsed_options parsed)) (Some filename));
     mkdirp_sync (path_dirname dest);;
     fs_writeFileSync dest source;;
     debug ("[tsc-ext] Wrote " +:+ dest)) b.
Proof.
  intros [Hgen|Hgen]; unfold codegen_writeFile; rewrite Hgen; reflexivity.
Qed.

(** Each codegen-capable extension is handed the callback built for it. *)
Lemma codegen_phase_single (basePath : string) (parsed : ParsedCommandLine)
    (ext : Extension B) hook (b : B) :
  codegen ext = Some hook ->
  codegen_phase basePath parsed [ext] b
  = hook (codegen_writeFile basePath parsed ext)
         (console_log [enabled_message CodegenPoint ext] b).
Proof.
  intros E. unfold codegen_phase. rewrite bind_run, filterSt_enabled.
  unfold enabled_extensions, enabled_log. cbn [List.filter fold_left].
  unfold provides. rewrite E, bool_decide_eq_true_2 by eauto.
  cbn [forEach]. rewrite bind_run, E. cbn [call_member].
  destruct (hook _ _) as [[[]|e|c] b']; reflexivity.
Qed.


(** *** Deferred wiring of the program *)

Lemma hooks_only_refl (h : ExtCompilerHostState) : hooks_only h h.
Proof.
  split; [reflexivity|]. exists []. rewrite app_nil_r. split; [reflexivity|constructor].
Qed.

Lemma hooks_only_trans (h1 h2 h3 : ExtCompilerHostState) :
  hooks_only h1 h2 -> hooks_only h2 h3 -> hooks_only h1 h3.
Proof.
  intros [Hp1 (a1 & He1 & Hf1)] [Hp2 (a2 & He2 & Hf2)]. split; [congruence|].
  exists (a1 ++ a2). split.
  - rewrite He2, He1, app_assoc. reflexivity.
  - apply Forall_app. split; [assumption|]. rewrite <- Hp1. assumption.
Qed.

Lemma keeps_ret {A : Type} (a : A) : keeps (B := B) (mret a : St (World (B := B)) A).
Proof. intros w. apply hooks_only_refl. Qed.

Lemma keeps_throw {A : Type} (e : Exception) : keeps (B := B) (throw e : St (World (B := B)) A).
Proof. intros w. apply hooks_only_refl. Qed.

Lemma keeps_of_outcome {A : Type} (o : Outcome A) :
  keeps (B := B) (of_outcome o : St (World (B := B)) A).
Proof. intros w. apply hooks_only_refl. Qed.

Lemma keeps_lift {A : Type} (m : St B A) : keeps (B := B) (lift m).
Proof. intros [h b]. rewrite lift_run. apply hooks_only_refl. Qed.

Lemma keeps_get_host : keeps (B := B) (get_host (B := B)).
Proof. intros w. apply hooks_only_refl. Qed.

Lemma keeps_bind {A C : Type} (m : St (World (B := B)) A) (f : A -> St (World (B := B)) C) :
  keeps (B := B) m -> (forall a, keeps (B := B) (f a)) -> keeps (B := B) (m ≫= f).
Proof.
  intros Hm Hf w. rewrite bind_run. specialize (Hm w).
  destruct (m w) as [[a|e|c] w']; cbn [fst snd] in *; try assumption.
  eapply hooks_only_trans; [exact Hm|]. apply Hf.
Qed.

Lemma keeps_forEach {A T : Type} (body : A -> T -> St (World (B := B)) T) (xs : list A) (acc : T) :
  (forall x t, keeps (B := B) (body x t)) -> keeps (B := B) (forEach body xs acc).
Proof.
  intros Hb. revert acc. induction xs as [|x xs IH]; intros acc.
  - apply keeps_ret.
  - cbn [forEach]. apply keeps_bind; [apply Hb|]. intros t. apply IH.
Qed.

Lemma keeps_call_member {T A : Type} (f : option T) (k : T -> St (World (B := B)) A) :
  (forall g, keeps (B := B) (k g)) -> keeps (B := B) (call_member f k).
Proof. intros Hk. destruct f; [apply Hk|apply keeps_throw]. Qed.

Lemma keeps_fmap_member {T U A : Type} (f : option T) (g : T -> U) (k : U -> St (World (B := B)) A) :
  (forall u, keeps (B := B) (k u)) -> keeps (B := B) (call_member (g <$> f) k).
Proof. intros Hk. destruct f; [apply Hk|apply keeps_throw]. Qed.

Lemma keeps_set_reverseMap (path specifier : string) :
  keeps (B := B) (modify_host (set_reverseMap path specifier)).
Proof.
  intros w. split; [reflexivity|]. exists []. cbn. rewrite app_nil_r.
  split; [reflexivity|constructor].
Qed.

Lemma keeps_push_diagnostics (ds : DiagArray) :
  keeps (B := B) (modify_host (push_diagnostics ds)).
Proof.
  intros w. split; [reflexivity|]. exists []. cbn. rewrite app_nil_r.
  split; [reflexivity|constructor].
Qed.

Lemma keeps_preProcess_each sf (ext : Extension B) (text : option string) :
  keeps (B := B) (preProcess_each sf ext text).
Proof.
  unfold preProcess_each. apply keeps_call_member. intros hook [h b].
  cbn. split; [reflexivity|].
  exists [PreProcessCalled (name ext) (host_program h)]. split; [reflexivity|].
  constructor; [|constructor]. exists (name ext). reflexivity.
Qed.

Lemma keeps_getSourceFile (delegate : CompilerHost B B) (exts : list (Extension B))
    fileName lv onError :
  keeps (B := B) (ExtCompilerHost_getSourceFile delegate exts fileName lv onError).
Proof.
  unfold ExtCompilerHost_getSourceFile.
  apply keeps_bind; [apply keeps_lift|]. intros sf.
  destruct (ends_with ".d.ts" fileName); [apply keeps_ret|].
  apply keeps_bind; [apply keeps_lift|]. intros text.
  apply keeps_bind; [apply keeps_lift|]. intros enabled_exts.
  apply keeps_bind;
    [|intros; apply keeps_bind; [apply keeps_of_outcome | intros; apply keeps_ret]].
  apply keeps_forEach. intros. apply keeps_preProcess_each.
Qed.

Lemma keeps_writeFile (delegate : CompilerHost B B) (exts : list (Extension B))
    fileName data bom onError :
  keeps (B := B) (ExtCompilerHost_writeFile delegate exts fileName data bom onError).
Proof.
  unfold ExtCompilerHost_writeFile.
  apply keeps_bind; [apply keeps_lift|]. intros enabled_exts.
  apply keeps_bind; [|intros; apply keeps_lift].
  apply keeps_forEach. intros ext t. unfold postProcess_each.
  apply keeps_call_member. intros. apply keeps_ret.
Qed.

Lemma keeps_resolveModuleNames (delegate : CompilerHost B B) (o : CompilerOptions)
    moduleNames containingFile :
  keeps (B := B) (ExtCompilerHost_resolveModuleNames delegate o moduleNames containingFile).
Proof.
  unfold ExtCompilerHost_resolveModuleNames. apply keeps_forEach.
  intros n result. unfold resolve_each.
  apply keeps_bind; [apply keeps_lift|]. intros [resolved|]; [|apply keeps_ret].
  apply keeps_bind; [apply keeps_set_reverseMap|]. intros. apply keeps_ret.
Qed.

(** Every operation of the extension-aware host, whoever calls it. *)
Lemma keeps_perform (delegate : CompilerHost B B) (o : CompilerOptions)
    (exts : list (Extension B)) (A : Type) (c : HostCall B A) :
  keeps (B := B) (perform (ExtCompilerHost delegate o exts) c).
Proof.
  destruct c; cbn [perform ExtCompilerHost lift_host DelegatingHost
                     getSourceFile getCancellationToken getDefaultLibFileName
                     getDefaultLibLocation writeFile getCurrentDirectory
                     getCanonicalFileName useCaseSensitiveFileNames getNewLine
                     resolveModuleNames fileExists readFile trace directoryExists
                     fmap option_fmap option_map call_member];
    try apply keeps_lift.
  - apply keeps_getSourceFile.
  - apply keeps_writeFile.
  - apply keeps_resolveModuleNames.
Qed.

(** Every routine the engine runs on the extension-aware host. *)
Lemma keeps_run_script (delegate : CompilerHost B B) (o : CompilerOptions)
    (exts : list (Extension B)) (R : Type) (s : Script B R) :
  keeps (B := B) (run_script (ExtCompilerHost delegate o exts) s).
Proof.
  induction s as [r|A c k IH].
  - apply keeps_ret.
  - cbn [run_script]. apply keeps_bind; [apply keeps_perform|]. exact IH.
Qed.


Lemma keeps_emit_loop (parsed : ParsedCommandLine) (exts : list (Extension B))
    (program : Program) (diagnostics : DiagArray) :
  keeps (B := B) (emit_loop parsed exts program diagnostics).
Proof.
  unfold emit_loop. apply keeps_forEach. intros sf [ds failed].
  destruct (isCompilationTarget sf); [|apply keeps_ret].
  apply keeps_bind; [apply keeps_run_script|]. intros result. apply keeps_ret.
Qed.

Lemma keeps_after_construct (basePath : string) (parsed : ParsedCommandLine)
    (exts : list (Extension B)) (program : Program) (diagnostics : DiagArray) :
  keeps (B := B) (after_construct basePath parsed exts program diagnostics).
Proof.
  unfold after_construct, emit_phase.
  repeat first
    [ apply keeps_lift
    | apply keeps_get_host
    | apply keeps_emit_loop
    | apply keeps_ret
    | apply keeps_bind; [|intros ?] ].
Qed.

(** How program construction leaves the host: either it did not complete and
    nothing was assigned, or the program was assigned last, after every hook
    entry made while it was being built. *)
Lemma construct_wiring (parsed : ParsedCommandLine) (exts : list (Extension B)) (b : B) :
  let run := construct parsed exts (new_ExtCompilerHost, b) in
  (aborted (fst run) = true
   /\ host_program (fst (snd run)) = None
   /\ Forall (called_with None) (ghost_events (fst (snd run))))
  \/ (exists p before,
        fst run = Normal p
        /\ host_program (fst (snd run)) = Some p
        /\ ghost_events (fst (snd run)) = before ++ [ProgramAssigned p]
        /\ Forall (called_with None) before).
Proof.
  intros run. subst run. unfold construct. rewrite bind_run.
  pose proof (keeps_run_script (delegateHost parsed) (parsed_options parsed) exts _
                (createProgram (fileNames parsed) (parsed_options parsed))
                (new_ExtCompilerHost, b)) as [Hp (added & He & Hf)].
  unfold compilerHost.
  destruct (run_script _ _ _) as [[p|e|c] [h1 b1]]; cbn [fst snd] in *.
  - right. exists p, added. unfold mbind, St_bind, modify_host, effect. cbn.
    rewrite He. cbn in Hf. auto.
  - left. cbn. rewrite Hp, He. auto.
  - left. cbn. rewrite Hp, He. auto.
Qed.

(** Where the assignment sits in a run of the orchestrator on a fresh host,
    for every engine: the program member is assigned at most once; every
    [preProcess] hook entered before the assignment is given the still
    unassigned member, every hook entered after it the assigned program. *)
Lemma program_assigned_once_after_construction (basePath : string)
    (parsed : ParsedCommandLine) (exts : list (Extension B)) (diagnostics : DiagArray)
    (b : B) :
  let run := main_host basePath parsed exts diagnostics (new_ExtCompilerHost, b) in
  let events := ghost_events (fst (snd run)) in
  (aborted (fst run) = true
   /\ host_program (fst (snd run)) = None
   /\ Forall (called_with None) events)
  \/ (exists p before after,
        events = before ++ ProgramAssigned p :: after
        /\ Forall (called_with None) before
        /\ Forall (called_with (Some p)) after
        /\ host_program (fst (snd run)) = Some p).
Proof.
  intros run events. subst events run. unfold main_host. rewrite bind_run.
  destruct (construct_wiring parsed exts b) as [(Ha & Hp & Hf)|(p & before & Hn & Hp & He & Hf)].
  - left. destruct (construct parsed exts (new_ExtCompilerHost, b)) as [[p|e|c] w1];
      cbn [fst snd aborted] in *; [discriminate|auto..].
  - right. destruct (construct parsed exts (new_ExtCompilerHost, b)) as [o w1].
    cbn [fst snd] in *. subst o.
    destruct (keeps_after_construct basePath parsed exts p diagnostics w1)
      as [Hp' (added & He' & Hf')].
    exists p, before, added. rewrite He', He, Hp', Hp, <- app_assoc.
    rewrite Hp in Hf'. auto.
Qed.

(** *** Emission *)

Lemma emit_loop_outer_diagnostics (parsed : ParsedCommandLine) (exts : list (Extension B))
    (program : Program) (diagnostics : DiagArray) (w w' : World)
    (vars : DiagArray * bool) :
  emit_loop parsed exts program diagnostics w = (Normal vars, w') ->
  fst vars = diagnostics.
Proof.
  unfold emit_loop. generalize false as failed. revert w.
  induction (getSourceFiles program) as [|sf sfs IH]; intros w failed H.
  - cbn in H. injection H as <- _. reflexivity.
  - cbn [forEach] in H. rewrite bind_run in H.
    destruct (isCompilationTarget sf).
    + rewrite bind_run in H.
      destruct (run_script _ _ _) as [[result|e|c] w1]; try discriminate.
      cbn in H. eapply IH. exact H.
    + cbn in H. eapply IH. exact H.
Qed.

(** The final check looks at the array of [main], which the loop never
    touches: once that array has passed the check of line 211, the emission
    phase returns whenever the loop completes, whatever the emissions
    reported. *)
Lemma emit_phase_ignores_emission_diagnostics (parsed : ParsedCommandLine)
    (exts : list (Extension B)) (program : Program) (diagnostics : DiagArray) (w : World) :
  first_element diagnostics = None ->
  emit_phase parsed exts program diagnostics w
  = (vars ← emit_loop parsed exts program diagnostics;
     mret (if snd vars : bool then 1%Z else 0%Z)) w.
Proof.
  intros Hfirst. unfold emit_phase. rewrite !bind_run.
  destruct (emit_loop parsed exts program diagnostics w) as [[vars|e|c] [h1 b1]] eqn:E;
    try reflexivity.
  apply emit_loop_outer_diagnostics in E. rewrite E.
  rewrite bind_run, lift_run, check_head_absent by assumption. reflexivity.
Qed.


(** The loop, seen from outside: it performs the emissions in order and
    hands back the array of [main] untouched, with [failed] telling whether
    some emission was skipped. *)
Lemma emit_loop_run (parsed : ParsedCommandLine) (exts : list (Extension B))
    (program : Program) (diagnostics : DiagArray) (w : World) :
  emit_loop parsed exts program diagnostics w
  = (results ← emit_all parsed exts program (getSourceFiles program);
     mret (diagnostics, existsb emitSkipped results)) w.
Proof.
  unfold emit_loop.
  enough (Hgen : forall sfs failed w,
    forEach (fun sf (vars : DiagArray * bool) =>
               let '(diagnostics, failed) := vars in
               if isCompilationTarget sf then
                 result ← run_script (compilerHost parsed exts) (emit program sf);
                 let diagnostics_1 := emit_diagnostics result in
                 let diagnostics_1 := diagnostics_1 ++ diagnostics_1 in
                 mret (diagnostics, failed || emitSkipped result)
               else mret (diagnostics, failed)) sfs (diagnostics, failed) w
    = (results ← emit_all parsed exts program sfs;
       mret (diagnostics, failed || existsb emitSkipped results)) w)
    by apply Hgen.
  induction sfs as [|sf sfs IH]; intros failed w0.
  - cbn [forEach emit_all]. rewrite bind_run. unfold mret, St_ret.
    cbn [existsb]. rewrite orb_false_r. reflexivity.
  - cbn [forEach emit_all]. rewrite !bind_run. unfold isCompilationTarget at 1.
    cbn beta iota zeta. rewrite bind_run.
    destruct (run_script (compilerHost parsed exts) (emit program sf) w0)
      as [[result|e|c] w1]; try reflexivity.
    unfold mret at 1, St_ret at 1. rewrite IH, !bind_run.
    destruct (emit_all parsed exts program sfs w1) as [[results|e|c] w2]; try reflexivity.
    unfold mret, St_ret. cbn [existsb]. rewrite orb_assoc. reflexivity.
Qed.

(** When the emissions all return, [main] returns 1 if some emission was
    skipped and 0 otherwise, even if emissions reported diagnostics. *)
Lemma emit_phase_result (parsed : ParsedCommandLine) (exts : list (Extension B))
    (program : Program) (diagnostics : DiagArray) (w w' : World)
    (results : list EmitResult) :
  first_element diagnostics = None ->
  emit_all parsed exts program (getSourceFiles program) w = (Normal results, w') ->
  emit_phase parsed exts program diagnostics w
  = (Normal (if existsb emitSkipped results then 1%Z else 0%Z), w').
Proof.
  intros Hfirst Hall.
  rewrite emit_phase_ignores_emission_diagnostics by assumption.
  rewrite bind_run, emit_loop_run, bind_run, Hall. reflexivity.
Qed.

End OrchestratorTheorems.

(** ** Closed examples on the concrete engine *)

Section Examples.
Local Existing Instance demo_data.
Local Existing Instance demo_node.

(** Two extensions append "A" and "B"; a third has no hook.  Both
    diagnostics reach the accumulator, and the unit returned is parsed from
    the text of the last enabled extension only. *)
Lemma getSourceFile_all_diagnostics_last_content_witness :
  let delegate := demo_host [("a.ts", "let a")] true in
  let exts := [appending "A" "A"; no_hooks "N"; appending "B" "B"] in
  let run :=
    ExtCompilerHost_getSourceFile delegate exts "a.ts" 1 None (new_ExtCompilerHost, []) in
  host_diagnostics (fst (snd run))
  = [Some (demo_diagnostic Message "A"); Some (demo_diagnostic Message "B")]
  /\ fst run = Normal (Some (createSourceFile "a.ts" "let aB" 1 true)).
Proof.
  intros delegate exts run.
  destruct (getSourceFile_all_diagnostics_last_content delegate exts "a.ts" 1 None
              new_ExtCompilerHost [] [] []
              (Some (createSourceFile "a.ts" "let a" 1 true)) (Some "let a")
              [appending "A" "A"] (appending "B" "B")
              eq_refl eq_refl eq_refl eq_refl) as (Hdiags & _ & result & Hresult & Hrun).
  split.
  - exact Hdiags.
  - injection Hresult as <-. exact Hrun.
Defined.

(** Two specifiers of one file around one that does not resolve. *)
Lemma resolveModuleNames_drops_and_overwrites_witness :
  let run :=
    ExtCompilerHost_resolveModuleNames (EN := demo_engine sc_plain) (demo_host [] true) None
      ["./a"; "missing"; "../src/a"] "/src/b.ts" (new_ExtCompilerHost, []) in
  fst run = Normal ["/src/a.ts"; "/src/a.ts"]
  /\ length (omap demo_resolve ["./a"; "missing"; "../src/a"]) < 3
  /\ reverseMap (fst (snd run)) !! "/src/a.ts" = Some "../src/a".
Proof.
  intros run.
  destruct (resolveModuleNames_drops_and_overwrites (EN := demo_engine sc_plain)
              (demo_host [] true) None ["./a"; "missing"; "../src/a"] "/src/b.ts"
              demo_resolve new_ExtCompilerHost [] (fun _ _ _ => eq_refl))
    as (Hrun & _ & Hshorter & Hmap).
  split; [exact Hrun|]. split.
  - apply Hshorter. exists "missing". split; [|reflexivity].
    apply list_elem_of_further, list_elem_of_here.
  - exact (Hmap "/src/a.ts").
Defined.

(** A bag without [genDir] under options without [outDir], a bag with
    [genDir] under options that do have an [outDir], and a bag with an
    empty [genDir]. *)
Lemma codegen_writeFile_destination_witness :
  codegen_writeFile "base" (demo_parsed None [])
    (generating "gen" None) "gen.ts" "export {}" []
  = (Thrown TypeError, [])
  /\ codegen_writeFile "base" (demo_parsed (Some "out") [])
       (generating "gen" (Some "generated")) "gen.ts" "export {}" []
     = (Normal tt,
        [Mkdirp "base/generated/gen.ts/..";
         FsWriteFile "base/generated/gen.ts" "export {}";
         ConsoleLog ["[tsc-ext] Wrote base/generated/gen.ts"]])
  /\ codegen_writeFile "base" (demo_parsed (Some "out") [])
       (generating "gen" (Some "")) "gen.ts" "export {}" []
     = (Normal tt,
        [Mkdirp "out/gen.ts/..";
         FsWriteFile "out/gen.ts" "export {}";
         ConsoleLog ["[tsc-ext] Wrote out/gen.ts"]]).
Proof.
  split; [|split].
  - exact (proj1 (codegen_writeFile_destination "base" (demo_parsed None [])
                    (generating "gen" None) "gen.ts" "export {}" [])
                 (or_introl eq_refl) eq_refl).
  - assert (Hdir : "generated" <> "") by discriminate.
    exact (proj1 (proj2 (codegen_writeFile_destination "base"
                           (demo_parsed (Some "out") [])
                           (generating "gen" (Some "generated")) "gen.ts" "export {}" []))
                 "generated" eq_refl Hdir).
  - exact (proj2 (proj2 (codegen_writeFile_destination "base"
                           (demo_parsed (Some "out") [])
                           (generating "gen" (Some "")) "gen.ts" "export {}" []))
                 "out" (or_intror eq_refl) eq_refl).
Defined.

(** C10 does not hold as stated: a bag whose [genDir] key is present and
    empty does not send the file under the base path; the file goes under
    the engine's output directory. *)
Lemma empty_genDir_is_not_used :
  let ext := generating "gen" (Some "") in
  let claimed := path_join_strings (path_join_strings "base" "") "gen.ts" in
  genDir (options ext) = Some ""
  /\ codegen_writeFile "base" (demo_parsed (Some "out") []) ext "gen.ts" "export {}" []
     <> (mkdirp_sync (path_dirname claimed);;
         fs_writeFileSync claimed "export {}";;
         debug ("[tsc-ext] Wrote " +:+ claimed)) [].
Proof.
  intros ext claimed. split; [reflexivity|].
  intros H. vm_compute in H. discriminate.
Qed.

(** C8.  A base host whose [writeFile] is a method reading [this], wrapped
    in a delegating host: invoked on the base host the write lands under
    its output directory; invoked on the delegating host the same function
    runs with the wrapper as receiver and raises a [TypeError], nothing
    written. *)
Theorem DelegatingHost_writeFile_runs_on_wrapper :
  perform demo_method_host (CallWriteFile Env "a.js" "var a" false None) []
  = (Normal tt, [HostWriteFile "out/a.js" "var a" false])
  /\ perform (DelegatingHost demo_method_host)
       (CallWriteFile Env "a.js" "var a" false None) []
     = (Thrown TypeError, []).
Proof. split; reflexivity. Qed.

(** C3.  A project with one root file and one extension whose [preProcess]
    tells whether it was given a program: the engine asks the host for the
    root while it builds the program, the hook is entered before the
    assignment and is given no program, and the output written is the one
    the hook produces for an undefined program. *)
Theorem preProcess_receives_unassigned_program :
  main (EN := demo_engine sc_probe) "project" None []
  = (Normal 0%Z,
     [ConsoleLog ["Executing preProcess from extension probe"];
      ConsoleLog ["Extension probe does not provide codegen"];
      ConsoleLog ["Extension probe does not provide check"];
      ConsoleLog ["Extension probe does not provide postProcess"];
      HostWriteFile "a.ts.js" "program undefined" false])
  /\ ghost_events
       (fst (snd (main_host (EN := demo_engine sc_probe) "project"
                    (demo_parsed (Some "out") ["a.ts"]) [probing "probe"] []
                    (new_ExtCompilerHost, []))))
     = [PreProcessCalled "probe" None;
        ProgramAssigned [createSourceFile "a.ts" "program undefined" 1 true]].
Proof. split; vm_compute; reflexivity. Qed.

(** C5 does not hold as stated: a pending list holding one warning and no
    diagnostic of fatal severity ends the run. *)
Lemma warning_alone_aborts :
  let pending := [Some (demo_diagnostic Warning "unused variable")] in
  ~ (aborted (fst (check (Some pending) [])) = true <-> has_fatal pending).
Proof.
  intros pending [Hfatal _].
  destruct Hfatal as (d & Hin & Hcategory); [reflexivity|].
  apply list_elem_of_singleton in Hin. injection Hin as ->. discriminate.
Qed.



(** The ordering the deferred wiring is meant to give fails on this run: the
    hook is entered, with no program, before the assignment. *)
Lemma hook_entered_before_assignment :
  let parsed := demo_parsed (Some "out") ["a.ts"] in
  let run := main_host (EN := demo_engine sc_probe) "project" parsed [probing "probe"] []
               (new_ExtCompilerHost, []) in
  fst run = Normal 0%Z
  /\ ghost_events (fst (snd run)) !! 0 = Some (PreProcessCalled "probe" None)
  /\ ~ assignment_precedes_hooks (ghost_events (fst (snd run))).
Proof.
  intros parsed run. split; [vm_compute; reflexivity|]. split; [vm_compute; reflexivity|].
  intros H. destruct (H 0 "probe" None) as (j & p & Hj & _).
  - vm_compute. reflexivity.
  - lia.
Qed.

(** C1.  A project with one source file and no extension, whose emission
    is not skipped and reports one error diagnostic: the run does not abort,
    nothing is reported, and [main] returns 0.  The diagnostic was pushed
    onto the array the emission returned, not onto the array the final
    check reads. *)
Theorem emission_diagnostic_does_not_abort :
  (forall sf, first_element (emit_diagnostics (sc_emit sc_emit_error sf))
              = Some (demo_diagnostic Error "Cannot write file"))
  /\ main (EN := demo_engine sc_emit_error) "project" None []
     = (Normal 0%Z, [HostWriteFile "a.ts.js" "let a" false]).
Proof. split; [intros sf|]; vm_compute; reflexivity. Qed.

End Examples.

(** * Further properties of the code *)

(** ** Reporting and loading *)

Section ReportingAndLoading.
Context `{ED : EngineData} {B : Type} `{ND : !Node B} `{EN : !Engine B}.

Lemma formatDiagnostic_present (d : Diagnostic) :
  exists line, formatDiagnostic (Some d) = Normal line.
Proof.
  unfold formatDiagnostic. destruct (file d) as [f|]; [|eauto].
  destruct (getLineAndCharacterOfPosition f (start d)). eauto.
Qed.

Lemma mapOutcome_formatDiagnostic (ds : DiagArray) :
  (None ∈ ds -> mapOutcome formatDiagnostic ds = Thrown TypeError)
  /\ (None ∉ ds -> exists lines, mapOutcome formatDiagnostic ds = Normal lines).
Proof.
  induction ds as [|[d|] rest [IHin IHout]].
  - split; [intros H; inversion H | intros _; cbn; eauto].
  - destruct (formatDiagnostic_present d) as [line Hline]. split.
    + intros Hin. apply elem_of_cons in Hin as [Heq|Hin]; [discriminate|].
      cbn [mapOutcome]. rewrite Hline, (IHin Hin). reflexivity.
    + intros Hout. destruct IHout as [lines Hlines].
      { intros Hin. apply Hout. right. exact Hin. }
      cbn [mapOutcome]. rewrite Hline, Hlines. eauto.
  - split; [reflexivity|]. intros Hout. exfalso. apply Hout. left.
Qed.

Lemma absent_or_all_present (ds : DiagArray) : None ∈ ds \/ None ∉ ds.
Proof.
  induction ds as [|[d|] rest [IH|IH]].
  - right. intros H. inversion H.
  - left. right. exact IH.
  - right. intros Hin. apply elem_of_cons in Hin as [Heq|Hin]; [discriminate|auto].
  - left. left.
  - left. left.
Qed.

Lemma formatDiagnostics_absent (ds : DiagArray) :
  None ∈ ds -> formatDiagnostics ds = Thrown TypeError.
Proof.
  intros Hin. unfold formatDiagnostics.
  rewrite (proj1 (mapOutcome_formatDiagnostic ds) Hin). reflexivity.
Qed.

Lemma formatDiagnostics_all_present (ds : DiagArray) :
  None ∉ ds -> exists text, formatDiagnostics ds = Normal text.
Proof.
  intros Hout. unfold formatDiagnostics.
  destruct (proj2 (mapOutcome_formatDiagnostic ds) Hout) as [lines ->]. eauto.
Qed.

(** X1.  The formatter raises a [TypeError] exactly when some element of the
    list is absent.  So a check on a list whose first element is present but
    which holds an absent element later ends in that [TypeError], with
    nothing reported and no [process.exit]; when every element is present it
    reports once and exits with code 1. *)
Theorem check_with_absent_later_element (ds : DiagArray) :
  (formatDiagnostics ds = Thrown TypeError <-> None ∈ ds)
  /\ (forall d rest (b : B), None ∈ rest ->
        check (Some (Some d :: rest)) b = (Thrown TypeError, b))
  /\ (forall d rest (b : B), None ∉ rest ->
        exists text,
          formatDiagnostics (Some d :: rest) = Normal text
          /\ check (Some (Some d :: rest)) b
             = (Exited 1, console_error ["FATAL"; text] b)).
Proof.
  split; [|split].
  - split; [|apply formatDiagnostics_absent].
    intros Hthrown. destruct (absent_or_all_present ds) as [Hin|Hout]; [assumption|].
    destruct (formatDiagnostics_all_present ds Hout) as [text Htext]. congruence.
  - intros d rest b Hin. rewrite check_head_present.
    rewrite formatDiagnostics_absent by (right; exact Hin). reflexivity.
  - intros d rest b Hout.
    destruct (formatDiagnostics_all_present (Some d :: rest)) as [text Htext].
    { intros Hin. apply elem_of_cons in Hin as [Heq|Hin]; [discriminate|auto]. }
    exists text. split; [assumption|]. rewrite check_head_present, Htext. reflexivity.
Qed.

Lemma load_each_run (entry : string * ExtensionOptions)
    (objects : gmap string (Extension B)) (result : list string) (b : B) :
  load_each entry (objects, result) b
  = (Normal (objects_after [entry] objects, result ++ option_list (load_target entry)),
     load_log [entry] b).
Proof.
  unfold load_each, objects_after, load_log, load_target, configured_object.
  cbn [fold_left fst snd].
  destruct (require_resolve (fst entry)) as [file|];
    [destruct (module_default file) as [ext|] eqn:E|]; cbn; rewrite ?E; cbn;
    rewrite ?app_nil_r; reflexivity.
Qed.

Lemma load_loop (entries : list (string * ExtensionOptions))
    (objects : gmap string (Extension B)) (result : list string) (b : B) :
  forEach load_each entries (objects, result) b
  = (Normal (objects_after entries objects, result ++ omap load_target entries),
     load_log entries b).
Proof.
  revert objects result b. induction entries as [|entry entries IH]; intros objects result b.
  - cbn. rewrite app_nil_r. reflexivity.
  - cbn [forEach]. rewrite bind_run, load_each_run, IH.
    cbn [omap list_omap]. unfold objects_after, load_log. cbn [fold_left].
    destruct (load_target entry); cbn [option_list];
      rewrite <- ?app_assoc, ?app_nil_r; reflexivity.
Qed.

Lemma load_target_object (entry : string * ExtensionOptions) (file : string) :
  load_target entry = Some file -> is_Some (module_default file).
Proof.
  unfold load_target. destruct (require_resolve (fst entry)) as [f|]; [|discriminate].
  destruct (module_default f) as [ext|] eqn:E; [|discriminate].
  intros [= <-]. rewrite E. eauto.
Qed.

Lemma last_cons_default {A : Type} (x : A) (l : list A) :
  last (x :: l) = Some (default x (last l)).
Proof.
  rewrite last_cons. destruct (last l); reflexivity.
Qed.

Lemma objects_after_lookup (entries : list (string * ExtensionOptions))
    (objects : gmap string (Extension B)) (file : string) :
  objects_after entries objects !! file
  = match last_loading entries file with
    | Some entry => configured_object entry file
    | None => objects !! file
    end.
Proof.
  unfold objects_after, last_loading.
  revert objects. induction entries as [|entry entries IH]; intros objects; [reflexivity|].
  cbn [fold_left List.filter]. rewrite IH.
  destruct (load_target entry) as [target|] eqn:E.
  - destruct (load_target_object entry target E) as [m Hm].
    assert (Hobj : exists obj, configured_object entry target = Some obj).
    { unfold configured_object. rewrite Hm. eauto. }
    destruct Hobj as [obj Hobj]. rewrite Hobj.
    destruct (decide (target = file)) as [->|Hne].
    + rewrite bool_decide_eq_true_2 by reflexivity. rewrite last_cons_default.
      destruct (last (List.filter _ entries)); cbn [default]; [reflexivity|].
      rewrite lookup_insert_eq. symmetry. exact Hobj.
    + rewrite bool_decide_eq_false_2 by congruence.
      destruct (last (List.filter _ entries)); [reflexivity|].
      apply lookup_insert_ne. assumption.
  - rewrite bool_decide_eq_false_2 by discriminate. reflexivity.
Qed.



(** Two configuration keys that resolve to the same module: the array holds
    the module's one object twice, with the key and bag of the second. *)
Lemma load_same_module_twice (first second : string * ExtensionOptions) (file : string)
    (b : B) :
  load_target first = Some file ->
  load_target second = Some file ->
  exists ext : Extension B,
    configured_object second file = Some ext
    /\ name ext = fst second
    /\ options ext = snd second
    /\ load (Some [first; second]) b = (Normal [ext; ext], b).
Proof.
  intros Hfirst Hsecond.
  destruct (load_target_object second file Hsecond) as [m Hm].
  assert (Hobj : configured_object second file
                 = Some {| options := snd second;
                           preProcess := preProcess m;
                           postProcess := postProcess m;
                           codegen := codegen m;
                           check_hook := check_hook m;
                           name := fst second;
                           loadPath := file |}).
  { unfold configured_object. rewrite Hm. reflexivity. }
  eexists. split; [exact Hobj|]. split; [reflexivity|]. split; [reflexivity|].
  unfold load. rewrite bind_run, load_loop. cbn [fst snd omap list_omap app].
  rewrite Hfirst, Hsecond. cbn [omap list_omap].
  rewrite objects_after_lookup.
  unfold last_loading, load_log. cbn [List.filter fold_left].
  rewrite Hfirst, Hsecond, bool_decide_eq_true_2 by reflexivity.
  cbn [last]. rewrite Hobj. reflexivity.
Qed.

End ReportingAndLoading.

(** ** More on the extension-aware host *)

Section HostInvariants.
Context `{ED : EngineData} {B : Type} `{ND : !Node B} `{EN : !Engine B}.

Lemma string_length_app (p q : string) :
  String.length (p +:+ q) = String.length p + String.length q.
Proof.
  induction p as [|a p IH]; [reflexivity|].
  change (S (String.length (p +:+ q)) = S (String.length p + String.length q)).
  rewrite IH. reflexivity.
Qed.

Lemma substring_whole (q : string) : String.substring 0 (String.length q) q = q.
Proof.
  induction q as [|a q IH]; [reflexivity|].
  change (String a (String.substring 0 (String.length q) q) = String a q).
  rewrite IH. reflexivity.
Qed.

Lemma substring_after_prefix (p q : string) :
  String.substring (String.length p) (String.length q) (p +:+ q) = q.
Proof. induction p as [|a p IH]; [apply substring_whole|]. exact IH. Qed.

Lemma ends_with_append (stem suffix : string) : ends_with suffix (stem +:+ suffix) = true.
Proof.
  unfold ends_with. rewrite string_length_app.
  replace (String.length stem + String.length suffix - String.length suffix)
    with (String.length stem) by lia.
  rewrite substring_after_prefix.
  rewrite !bool_decide_eq_true_2; [reflexivity|lia|reflexivity].
Qed.

(** X3.  A file whose name ends in ".d.ts" is exempt from [preProcess]:
    whatever the extensions, its retrieval is the base host's retrieval and
    nothing else, so no hook runs, nothing is logged, and the host's members
    stay as they were. *)
Theorem declaration_file_bypasses_preProcess (delegate : CompilerHost B B)
    (exts : list (Extension B)) (stem fileName : string) (lv : ScriptTarget)
    (onError : option (OnError B)) (w : World) :
  fileName = stem +:+ ".d.ts" ->
  ExtCompilerHost_getSourceFile delegate exts fileName lv onError w
  = lift (getSourceFile delegate fileName lv onError) w.
Proof.
  intros ->. destruct w as [h b]. unfold ExtCompilerHost_getSourceFile.
  rewrite bind_run, lift_run, ends_with_append.
  destruct (getSourceFile delegate (stem +:+ ".d.ts") lv onError b) as [[sf|e|c] b1];
    reflexivity.
Qed.

(** *** Relations kept by every operation *)

Section Preserved.
Variable R : relation ExtCompilerHostState.
Hypothesis R_refl : forall h, R h h.
Hypothesis R_trans : forall h1 h2 h3, R h1 h2 -> R h2 h3 -> R h1 h3.

Lemma preserved_ret {A : Type} (a : A) : preserved R (mret a : St (World (B := B)) A).
Proof using R_refl. intros w. apply R_refl. Qed.

Lemma preserved_throw {A : Type} (e : Exception) :
  preserved R (throw e : St (World (B := B)) A).
Proof using R_refl. intros w. apply R_refl. Qed.

Lemma preserved_of_outcome {A : Type} (o : Outcome A) :
  preserved R (of_outcome o : St (World (B := B)) A).
Proof using R_refl. intros w. apply R_refl. Qed.

Lemma preserved_lift {A : Type} (m : St B A) : preserved R (lift m).
Proof using R_refl. intros [h b]. rewrite lift_run. apply R_refl. Qed.

Lemma preserved_get_host : preserved R (get_host (B := B)).
Proof using R_refl. intros w. apply R_refl. Qed.

Lemma preserved_modify (f : ExtCompilerHostState -> ExtCompilerHostState) :
  (forall h, R h (f h)) -> preserved R (modify_host (B := B) f).
Proof using Type. intros Hf w. apply Hf. Qed.

Lemma preserved_bind {A C : Type} (m : St (World (B := B)) A)
    (f : A -> St (World (B := B)) C) :
  preserved R m -> (forall a, preserved R (f a)) -> preserved R (m ≫= f).
Proof using R_trans.
  intros Hm Hf w. rewrite bind_run. specialize (Hm w).
  destruct (m w) as [[a|e|c] w']; cbn [fst snd] in *; try assumption.
  eapply R_trans; [exact Hm|]. apply Hf.
Qed.

Lemma preserved_forEach {A T : Type} (body : A -> T -> St (World (B := B)) T)
    (xs : list A) (acc : T) :
  (forall x t, preserved R (body x t)) -> preserved R (forEach body xs acc).
Proof using R_refl R_trans.
  intros Hb. revert acc. induction xs as [|x xs IH]; intros acc.
  - apply preserved_ret.
  - cbn [forEach]. apply preserved_bind; [apply Hb|]. intros t. apply IH.
Qed.

Lemma preserved_call_member {T A : Type} (f : option T)
    (k : T -> St (World (B := B)) A) :
  (forall g, preserved R (k g)) -> preserved R (call_member f k).
Proof using R_refl. intros Hk. destruct f; [apply Hk|apply preserved_throw]. Qed.

(** What the three operations of the host need to keep [R]. *)
Hypothesis R_push : forall ds h, R h (push_diagnostics ds h).
Hypothesis R_event : forall e h, R h (record_event e h).
Hypothesis R_map : forall path specifier h, R h (set_reverseMap path specifier h).

Lemma preserved_getSourceFile (delegate : CompilerHost B B) (exts : list (Extension B))
    fileName lv onError :
  preserved R (ExtCompilerHost_getSourceFile delegate exts fileName lv onError).
Proof using R_refl R_trans R_push R_event.
  unfold ExtCompilerHost_getSourceFile.
  apply preserved_bind; [apply preserved_lift|]. intros sf.
  destruct (ends_with ".d.ts" fileName); [apply preserved_ret|].
  apply preserved_bind; [apply preserved_lift|]. intros text.
  apply preserved_bind; [apply preserved_lift|]. intros enabled_exts.
  apply preserved_bind;
    [|intros; apply preserved_bind;
        [apply preserved_of_outcome | intros; apply preserved_ret]].
  apply preserved_forEach. intros ext t. unfold preProcess_each.
  apply preserved_call_member. intros hook.
  apply preserved_bind; [apply preserved_get_host|]. intros h.
  apply preserved_bind; [apply preserved_modify, R_event|]. intros _.
  apply preserved_bind; [apply preserved_modify, R_push|]. intros _.
  apply preserved_ret.
Qed.

Lemma preserved_writeFile (delegate : CompilerHost B B) (exts : list (Extension B))
    fileName data bom onError :
  preserved R (ExtCompilerHost_writeFile delegate exts fileName data bom onError).
Proof using R_refl R_trans.
  unfold ExtCompilerHost_writeFile.
  apply preserved_bind; [apply preserved_lift|]. intros enabled_exts.
  apply preserved_bind; [|intros; apply preserved_lift].
  apply preserved_forEach. intros ext t. unfold postProcess_each.
  apply preserved_call_member. intros. apply preserved_ret.
Qed.

Lemma preserved_resolveModuleNames (delegate : CompilerHost B B) (o : CompilerOptions)
    moduleNames containingFile :
  preserved R (ExtCompilerHost_resolveModuleNames delegate o moduleNames containingFile).
Proof using R_refl R_trans R_map.
  unfold ExtCompilerHost_resolveModuleNames. apply preserved_forEach.
  intros n result. unfold resolve_each.
  apply preserved_bind; [apply preserved_lift|]. intros [resolved|]; [|apply preserved_ret].
  apply preserved_bind; [apply preserved_modify, R_map|]. intros. apply preserved_ret.
Qed.

Lemma preserved_perform (delegate : CompilerHost B B) (o : CompilerOptions)
    (exts : list (Extension B)) (A : Type) (c : HostCall B A) :
  preserved R (perform (ExtCompilerHost delegate o exts) c).
Proof using R_refl R_trans R_push R_event R_map.
  destruct c; cbn [perform ExtCompilerHost lift_host DelegatingHost
                     getSourceFile getCancellationToken getDefaultLibFileName
                     getDefaultLibLocation writeFile getCurrentDirectory
                     getCanonicalFileName useCaseSensitiveFileNames getNewLine
                     resolveModuleNames fileExists readFile trace directoryExists
                     fmap option_fmap option_map call_member];
    try apply preserved_lift.
  - apply preserved_getSourceFile.
  - apply preserved_writeFile.
  - apply preserved_resolveModuleNames.
Qed.

Lemma preserved_run_script (delegate : CompilerHost B B) (o : CompilerOptions)
    (exts : list (Extension B)) (T : Type) (s : Script B T) :
  preserved R (run_script (ExtCompilerHost delegate o exts) s).
Proof using R_refl R_trans R_push R_event R_map.
  induction s as [r|A c k IH].
  - apply preserved_ret.
  - cbn [run_script]. apply preserved_bind; [apply preserved_perform|]. exact IH.
Qed.

End Preserved.

Lemma grows_refl (h : ExtCompilerHostState) : grows h h.
Proof. split; reflexivity. Qed.

Lemma grows_trans (h1 h2 h3 : ExtCompilerHostState) :
  grows h1 h2 -> grows h2 h3 -> grows h1 h3.
Proof. intros [Hd1 Hm1] [Hd2 Hm2]. split; etrans; eassumption. Qed.

(** X4.  Whatever the engine asks of the host and in whatever order, while
    it builds the program or while it emits, and however the routine ends:
    the diagnostics accumulator keeps what it held and is only extended at
    its end, and no path leaves the reverse module map. *)
Theorem accumulators_only_grow (delegate : CompilerHost B B) (o : CompilerOptions)
    (exts : list (Extension B)) (T : Type) (routine : Script B T) (w : World) :
  let h' := fst (snd (run_script (ExtCompilerHost delegate o exts) routine w)) in
  host_diagnostics (fst w) `prefix_of` host_diagnostics h'
  /\ dom (reverseMap (fst w)) ⊆ dom (reverseMap h').
Proof.
  apply (preserved_run_script grows grows_refl grows_trans).
  - intros ds h. split; [apply prefix_app_r; reflexivity | reflexivity].
  - intros e h. split; reflexivity.
  - intros path specifier h. split; [reflexivity|].
    cbn. rewrite dom_insert_L. set_solver.
Qed.

(** X5.  Every operation other than source retrieval, output writing and
    module-name resolution reaches the base host unchanged through the
    extension-aware host: same result, same effect on the environment, and
    the host's own members untouched. *)
Theorem inherited_operations_pass_through (delegate : CompilerHost B B)
    (o : CompilerOptions) (exts : list (Extension B)) (A : Type) (c : HostCall B A)
    (w : World) :
  overridden c = false ->
  perform (ExtCompilerHost delegate o exts) c w = lift (perform delegate c) w.
Proof.
  intros Hc. destruct c; try discriminate; cbn;
    try reflexivity;
    match goal with
    | |- context [call_member (_ <$> ?f)] => destruct f; reflexivity
    | _ => idtac
    end.
Qed.

Lemma same_diagnostics_program_refl (h : ExtCompilerHostState) :
  same_diagnostics_program h h.
Proof. split; reflexivity. Qed.

Lemma same_diagnostics_program_trans (h1 h2 h3 : ExtCompilerHostState) :
  same_diagnostics_program h1 h2 -> same_diagnostics_program h2 h3 ->
  same_diagnostics_program h1 h3.
Proof. intros [Hd1 Hp1] [Hd2 Hp2]. split; congruence. Qed.

Lemma same_reverseMap_program_refl (h : ExtCompilerHostState) :
  same_reverseMap_program h h.
Proof. split; reflexivity. Qed.

Lemma same_reverseMap_program_trans (h1 h2 h3 : ExtCompilerHostState) :
  same_reverseMap_program h1 h2 -> same_reverseMap_program h2 h3 ->
  same_reverseMap_program h1 h3.
Proof. intros [Hd1 Hp1] [Hd2 Hp2]. split; congruence. Qed.

(** X6.  What each overriding operation never touches, however it ends: an
    output write leaves every member of the host as it was; a module-name
    resolution leaves the diagnostics accumulator and the program member;
    a source retrieval leaves the reverse module map and the program
    member. *)
Theorem operations_leave_other_members (delegate : CompilerHost B B)
    (o : CompilerOptions) (exts : list (Extension B)) (w : World) :
  (forall fileName data bom onError,
     fst (snd (ExtCompilerHost_writeFile delegate exts fileName data bom onError w)) = fst w)
  /\ (forall moduleNames containingFile,
        same_diagnostics_program (fst w)
          (fst (snd (ExtCompilerHost_resolveModuleNames delegate o moduleNames
                       containingFile w))))
  /\ (forall fileName lv onError,
        same_reverseMap_program (fst w)
          (fst (snd (ExtCompilerHost_getSourceFile delegate exts fileName lv onError w)))).
Proof.
  split; [|split].
  - intros fileName data bom onError. destruct w as [h b].
    rewrite writeFile_run, lift_run. reflexivity.
  - intros moduleNames containingFile.
    apply (preserved_resolveModuleNames same_diagnostics_program
             same_diagnostics_program_refl same_diagnostics_program_trans).
    intros path specifier h. split; reflexivity.
  - intros fileName lv onError.
    apply (preserved_getSourceFile same_reverseMap_program
             same_reverseMap_program_refl same_reverseMap_program_trans).
    + intros ds h. split; reflexivity.
    + intros e h. split; reflexivity.
Qed.

End HostInvariants.

(** ** More on module resolution and the orchestrator *)

Section OrchestratorMore.
Context `{ED : EngineData} {B : Type} `{ND : !Node B} `{EN : !Engine B}.

Lemma last_filter_Some {A : Type} (f : A -> bool) (l : list A) (x : A) :
  last (List.filter f l) = Some x -> x ∈ l /\ f x = true.
Proof.
  intros H. apply last_Some in H as [l' Hl'].
  assert (Hin : In x (List.filter f l)).
  { rewrite Hl'. apply in_or_app. right. left. reflexivity. }
  apply filter_In in Hin as [Hin Hf]. split; [apply list_elem_of_In|]; assumption.
Qed.

Lemma last_filter_is_Some {A : Type} (f : A -> bool) (l : list A) (x : A) :
  x ∈ l -> f x = true -> is_Some (last (List.filter f l)).
Proof.
  intros Hin Hf. apply last_is_Some. intros Hnil.
  assert (Hx : In x (List.filter f l)).
  { apply filter_In. split; [apply list_elem_of_In|]; assumption. }
  rewrite Hnil in Hx. exact Hx.
Qed.

(** X7.  When each requested specifier has a definite resolution and
    resolving leaves the environment alone, the reverse map after the
    request reverses the resolution: an entry that the request wrote or
    replaced maps its path to a requested specifier that resolves to that
    very path, every other entry is as before, and the resolved path of
    every requested specifier that resolves has an entry. *)
Theorem reverseMap_inverts_resolution (delegate : CompilerHost B B)
    (o : CompilerOptions) (moduleNames : list string) (containingFile : string)
    (resolve : string -> option ResolvedModule) (h : ExtCompilerHostState) (b : B) :
  (forall moduleName b', moduleName ∈ moduleNames ->
     resolveModuleName moduleName containingFile o delegate b'
     = (Normal (resolve moduleName), b')) ->
  let h' := fst (snd (ExtCompilerHost_resolveModuleNames delegate o moduleNames
                        containingFile (h, b))) in
  (forall path specifier,
     reverseMap h' !! path = Some specifier ->
     reverseMap h !! path = Some specifier
     \/ (specifier ∈ moduleNames /\ resolvedFileName <$> resolve specifier = Some path))
  /\ (forall moduleName resolved,
        moduleName ∈ moduleNames -> resolve moduleName = Some resolved ->
        exists specifier,
          reverseMap h' !! resolvedFileName resolved = Some specifier
          /\ specifier ∈ moduleNames
          /\ resolvedFileName <$> resolve specifier = Some (resolvedFileName resolved)).
Proof.
  intros Hres h'. subst h'. unfold ExtCompilerHost_resolveModuleNames.
  rewrite (resolve_loop delegate o containingFile resolve moduleNames Hres).
  cbn [fst snd with_reverseMap reverseMap]. split.
  - intros path specifier. rewrite reverseMap_after_lookup. unfold last_resolving.
    destruct (last _) as [n|] eqn:E; [|auto].
    intros [= ->]. right. apply last_filter_Some in E as [Hin Hr].
    split; [assumption|]. unfold resolves_to in Hr.
    apply bool_decide_eq_true_1 in Hr. exact Hr.
  - intros moduleName resolved Hin Hr.
    assert (Hto : resolves_to resolve (resolvedFileName resolved) moduleName = true).
    { unfold resolves_to. apply bool_decide_eq_true_2. rewrite Hr. reflexivity. }
    destruct (last_filter_is_Some _ _ _ Hin Hto) as [specifier E].
    exists specifier. rewrite reverseMap_after_lookup. unfold last_resolving. rewrite E.
    split; [reflexivity|]. apply last_filter_Some in E as [Hin' Hr'].
    split; [assumption|]. unfold resolves_to in Hr'.
    apply bool_decide_eq_true_1 in Hr'. exact Hr'.
Qed.

(** *** What [main] returns *)

Lemma returns_only_ret {S A : Type} (P : A -> Prop) (a : A) :
  P a -> returns_only P (mret a : St S A).
Proof. intros Ha s a' s' [= <- _]. exact Ha. Qed.

Lemma returns_only_bind {S A C : Type} (P : C -> Prop) (m : St S A) (f : A -> St S C) :
  (forall a, returns_only P (f a)) -> returns_only P (m ≫= f).
Proof.
  intros Hf s c s' H. rewrite bind_run in H.
  destruct (m s) as [[a|e|x] s1]; try discriminate. eapply Hf. exact H.
Qed.

Lemma returns_only_with_new_host {A : Type} (P : A -> Prop) (m : St (World (B := B)) A) :
  returns_only P m -> returns_only P (with_new_host m).
Proof.
  intros Hm b a b' H. unfold with_new_host in H.
  destruct (m (new_ExtCompilerHost, b)) as [o w] eqn:E.
  injection H as -> _. eapply Hm. exact E.
Qed.

Lemma main_host_code (basePath : string) (parsed : ParsedCommandLine)
    (exts : list (Extension B)) (diagnostics : DiagArray) :
  returns_only (fun code => code = 0%Z \/ code = 1%Z)
    (main_host basePath parsed exts diagnostics).
Proof.
  unfold main_host, after_construct, emit_phase.
  repeat (apply returns_only_bind; intros ?).
  apply returns_only_ret. destruct (snd _); auto.
Qed.

Lemma main_code (project : string) (basePath : option string) :
  returns_only (fun code => code = 0%Z \/ code = 1%Z) (main project basePath).
Proof.
  unfold main. apply returns_only_bind. intros [[bp exts] parsed].
  apply returns_only_with_new_host, main_host_code.
Qed.

(** X8.  Whenever [main] returns, it returns 0 or 1. *)
Theorem main_returns_0_or_1 (project : string) (basePath : option string) (b b' : B)
    (code : Z) :
  main project basePath b = (Normal code, b') -> code = 0%Z \/ code = 1%Z.
Proof. intros H. exact (main_code project basePath b code b' H). Qed.


(** X10.  The project file.  [main] reads "tsconfig.json" inside the project
    when the project is a directory, and the project itself otherwise.  When
    reading it yields an error diagnostic, the run reports that diagnostic
    and exits with code 1 before anything else happens; when it yields
    neither an error nor a configuration, a [TypeError] escapes. *)
Theorem config_read_failure_ends_run (project : string) (basePath : option string)
    (b b1 b2 : B) (isDirectory : bool) (read : ConfigFile) :
  lstat_isDirectory project b = (Normal isDirectory, b1) ->
  readConfigFile (if isDirectory then path_join_strings project "tsconfig.json"
                  else project) b1 = (Normal read, b2) ->
  (forall d, error read = Some d ->
     exists text,
       formatDiagnostics [Some d] = Normal text
       /\ main project basePath b = (Exited 1, console_error ["FATAL"; text] b2))
  /\ (error read = None -> config read = None ->
      main project basePath b = (Thrown TypeError, b2)).
Proof.
  intros Hstat Hread. split.
  - intros d Hd.
    destruct (formatDiagnostics_all_present [Some d]) as [text Htext].
    { intros Hin. apply list_elem_of_singleton in Hin. discriminate. }
    exists text. split; [assumption|].
    unfold main, resolve_config.
    rewrite bind_run, bind_run, Hstat, bind_run, Hread, bind_run, Hd.
    rewrite check_head_present, Htext. reflexivity.
  - intros He Hc. unfold main, resolve_config.
    rewrite bind_run, bind_run, Hstat, bind_run, Hread, bind_run, He, Hc.
    rewrite check_head_absent by reflexivity. reflexivity.
Qed.

(** X11.  Every source file of the program is a compilation target: the
    diagnostics checked before emission are those [main] already held
    followed by the pre-emit diagnostics of each source file of the
    program, in program order, none left out. *)
Theorem collect_preEmit_covers_every_file (program : Program) (diagnostics : DiagArray) :
  collect_preEmit program diagnostics
  = diagnostics
      ++ flat_map (fun sf => getPreEmitDiagnostics program (Some sf)) (getSourceFiles program).
Proof.
  unfold collect_preEmit. revert diagnostics.
  induction (getSourceFiles program) as [|sf sfs IH]; intros diagnostics.
  - cbn. rewrite app_nil_r. reflexivity.
  - cbn [fold_left flat_map]. rewrite IH. unfold isCompilationTarget.
    cbn iota. rewrite <- app_assoc. reflexivity.
Qed.

(** X12.  Emission: once the pending list has passed its check and when
    every emission returns, each source file of the program has been
    emitted once, in program order, and the phase returns 1 exactly when
    some emission was skipped and 0 exactly when none was, whatever
    diagnostics the emissions reported. *)
Theorem emission_failure_iff_skipped (parsed : ParsedCommandLine)
    (exts : list (Extension B)) (program : Program) (diagnostics : DiagArray)
    (w w' : World) (results : list EmitResult) :
  first_element diagnostics = None ->
  emit_all parsed exts program (getSourceFiles program) w = (Normal results, w') ->
  exists code,
    emit_phase parsed exts program diagnostics w = (Normal code, w')
    /\ length results = length (getSourceFiles program)
    /\ (code = 1%Z <-> Exists (fun r => emitSkipped r = true) results)
    /\ (code = 0%Z <-> Forall (fun r => emitSkipped r = false) results).
Proof.
  intros Hfirst Hall.
  exists (if existsb emitSkipped results then 1%Z else 0%Z).
  split; [apply emit_phase_result; assumption|]. split.
  - clear Hfirst. revert w w' results Hall.
    induction (getSourceFiles program) as [|sf sfs IH]; intros w0 w0' results Hall.
    + cbn in Hall. injection Hall as <- _. reflexivity.
    + cbn [emit_all] in Hall. rewrite bind_run in Hall.
      destruct (run_script _ _ w0) as [[r|e|c] w1]; try discriminate.
      rewrite bind_run in Hall.
      destruct (emit_all parsed exts program sfs w1) as [[rs|e|c] w2] eqn:E;
        try discriminate.
      injection Hall as <- _. cbn [length]. f_equal. eapply IH. exact E.
  - destruct (existsb emitSkipped results) eqn:E.
    + apply existsb_exists in E as (r & Hin & Hr).
      split; split; try discriminate; try (intros _; reflexivity).
      * intros _. apply Exists_exists. exists r. split; [apply list_elem_of_In|]; assumption.
      * intros Hall'. rewrite Forall_forall in Hall'.
        rewrite (Hall' r) in Hr by (apply list_elem_of_In; assumption). discriminate.
    + split; split; try discriminate; try (intros _; reflexivity).
      * intros Hex. apply Exists_exists in Hex as (r & Hin & Hr).
        assert (existsb emitSkipped results = true) as Ht; [|congruence].
        apply existsb_exists. exists r. split; [apply list_elem_of_In|]; assumption.
      * intros _. apply Forall_forall. intros r Hin.
        destruct (emitSkipped r) eqn:Hr; [|reflexivity].
        assert (existsb emitSkipped results = true) as Ht; [|congruence].
        apply existsb_exists. exists r. split; [apply list_elem_of_In|]; assumption.
Qed.


(** X13.  Probing a list of extensions for a hook never fails: it keeps
    exactly the extensions that provide the hook, in their configured
    order, and writes one log line per extension of the list, kept or not,
    in that order and before any hook runs. *)
Theorem enabled_filter_keeps_providers (extensionPoint : ExtensionPoint)
    (exts : list (Extension B)) (b : B) :
  filterSt (enabled extensionPoint) exts b
  = (Normal (List.filter (provides extensionPoint) exts),
     fold_left (fun b ext => console_log [enabled_message extensionPoint ext] b) exts b)
  /\ (forall ext : Extension B, provides extensionPoint ext = true ->
        enabled_message extensionPoint ext
        = "Executing " +:+ extensionPoint_name extensionPoint
            +:+ " from extension " +:+ name ext)
  /\ (forall ext : Extension B, provides extensionPoint ext = false ->
        enabled_message extensionPoint ext
        = "Extension " +:+ name ext +:+ " does not provide "
            +:+ extensionPoint_name extensionPoint).
Proof.
  split; [apply filterSt_enabled|].
  split; intros ext Hp; unfold enabled_message; rewrite Hp; reflexivity.
Qed.

End OrchestratorMore.

(** ** More closed examples on the concrete engine *)

Section MoreExamples.
Local Existing Instance demo_data.
Local Existing Instance demo_node.

(** A declaration file under an extension that rewrites sources. *)
Lemma declaration_file_bypasses_preProcess_witness :
  ExtCompilerHost_getSourceFile (demo_host [("lib.d.ts", "declare var x")] true)
    [appending "A" "A"] "lib.d.ts" 1 None (new_ExtCompilerHost, [])
  = (Normal (Some (createSourceFile "lib.d.ts" "declare var x" 1 true)),
     (new_ExtCompilerHost, [])).
Proof.
  exact (declaration_file_bypasses_preProcess
           (demo_host [("lib.d.ts", "declare var x")] true)
           [appending "A" "A"] "lib" "lib.d.ts" 1 None (new_ExtCompilerHost, []) eq_refl).
Defined.

(** An existence check through the extension-aware host. *)
Lemma inherited_operations_pass_through_witness :
  perform (ExtCompilerHost (EN := demo_engine sc_plain) (demo_host [("a.ts", "let a")] true)
             None [appending "A" "A"])
    (CallFileExists Env "a.ts") (new_ExtCompilerHost, [])
  = (Normal true, (new_ExtCompilerHost, [])).
Proof.
  exact (inherited_operations_pass_through (EN := demo_engine sc_plain)
           (demo_host [("a.ts", "let a")] true) None [appending "A" "A"] bool
           (CallFileExists Env "a.ts") (new_ExtCompilerHost, []) eq_refl).
Defined.

(** The path of the first specifier maps back to a specifier of that path. *)
Lemma reverseMap_inverts_resolution_witness :
  let h' := fst (snd (ExtCompilerHost_resolveModuleNames (EN := demo_engine sc_plain)
                        (demo_host [] true) None ["./a"; "missing"; "../src/a"]
                        "/src/b.ts" (new_ExtCompilerHost, []))) in
  exists specifier,
    reverseMap h' !! "/src/a.ts" = Some specifier
    /\ specifier ∈ ["./a"; "missing"; "../src/a"]
    /\ demo_resolve specifier = Some "/src/a.ts".
Proof.
  intros h'.
  destruct (proj2 (reverseMap_inverts_resolution (EN := demo_engine sc_plain)
                     (demo_host [] true) None ["./a"; "missing"; "../src/a"] "/src/b.ts"
                     demo_resolve new_ExtCompilerHost [] (fun _ _ _ => eq_refl))
                  "./a" "/src/a.ts" (list_elem_of_here _ _) eq_refl)
    as (specifier & Hlookup & Hin & Hresolve).
  exists specifier. split; [exact Hlookup|]. split; [exact Hin|].
  destruct (demo_resolve specifier) as [path|]; [|discriminate].
  injection Hresolve as ->. reflexivity.
Defined.

(** A clean project with one file. *)
Lemma main_returns_0_or_1_witness :
  main (EN := demo_engine sc_plain) "project" None []
  = (Normal 0%Z, [HostWriteFile "a.ts.js" "let a" false])
  /\ (0 = 0 \/ 0 = 1)%Z.
Proof.
  assert (Hrun : main (EN := demo_engine sc_plain) "project" None []
                 = (Normal 0%Z, [HostWriteFile "a.ts.js" "let a" false]))
    by (vm_compute; reflexivity).
  split; [exact Hrun|].
  exact (main_returns_0_or_1 (EN := demo_engine sc_plain) "project" None [] _ 0%Z Hrun).
Defined.

(** A project whose configuration cannot be read. *)
Lemma config_read_failure_ends_run_witness :
  exists text,
    formatDiagnostics [Some (demo_diagnostic Error "Cannot read file")] = Normal text
    /\ main (EN := demo_engine_unreadable) "project" None []
       = (Exited 1, console_error ["FATAL"; text] []).
Proof.
  exact (proj1 (config_read_failure_ends_run (EN := demo_engine_unreadable)
                  "project" None [] [] [] true
                  {| config := None;
                     error := Some (demo_diagnostic Error "Cannot read file") |}
                  eq_refl eq_refl)
               (demo_diagnostic Error "Cannot read file") eq_refl).
Defined.

(** One file, emitted and not skipped. *)
Lemma emission_failure_iff_skipped_witness :
  exists code,
    emit_phase (EN := demo_engine sc_plain) (demo_parsed None ["a.ts"]) [] [demo_source] []
      (new_ExtCompilerHost, [])
    = (Normal code, (new_ExtCompilerHost, [HostWriteFile "a.ts.js" "let a" false]))
    /\ length [emitted_cleanly demo_source]
       = length (getSourceFiles (Engine := demo_engine sc_plain) [demo_source])
    /\ (code = 1%Z <-> Exists (fun r => emitSkipped r = true) [emitted_cleanly demo_source])
    /\ (code = 0%Z <-> Forall (fun r => emitSkipped r = false) [emitted_cleanly demo_source]).
Proof.
  exact (emission_failure_iff_skipped (EN := demo_engine sc_plain)
           (demo_parsed None ["a.ts"]) [] [demo_source] []
           (new_ExtCompilerHost, [])
           (new_ExtCompilerHost, [HostWriteFile "a.ts.js" "let a" false])
           [emitted_cleanly demo_source] eq_refl eq_refl).
Defined.

End MoreExamples.
